(** * Submission review page: inline comments, highlight renderer, rubric scores

    A shallow embedding of the stateful logic of [SubmissionReviewPage]
    (the review screen of the dashboard): the inline-comment store kept in
    React state, the selection handler that turns a DOM selection into a
    pair of offsets, the renderer that cuts the submission text into plain
    and highlighted segments, the AI-analysis handler, and the rubric score
    update.

    - React state is modelled by explicit state passing over the record
      [Page.t]; an event handler is a function from the state, and the data
      the browser hands to it, to the next state.  A functional update
      [setX(prev => ...)] reads the state of that moment.
    - An [async] handler is cut at its [await]: one function up to the
      request, which also returns what the closure keeps, and one function
      from the response on.  Other handlers may run in between.
    - Values produced by [Date.now()], [Math.random()] and
      [new Date().toISOString()] are inputs of the handlers.
    - Strings are sequences of code units (here the code units below 256),
      offsets are integers, scores are binary64 Numbers.

    The first part holds the definitions, the second part the lemmas and
    theorems. *)

From Stdlib Require Import ZArith List String Ascii Bool Lia.
From Stdlib Require Import Permutation Sorted.
From Stdlib Require Import SpecFloat.
Import ListNotations.

Local Open Scope Z_scope.

(* ===================================================================== *)
(** * The JavaScript built-ins the page relies on *)
(* ===================================================================== *)

Module JS.

(** ** Strings

    A string is a sequence of code units; [String.length] is the
    [length] property. *)

Fixpoint take (n : nat) (s : string) : string :=
  match n, s with
  | S n', String c s' => String c (take n' s')
  | _, _ => EmptyString
  end.

Fixpoint drop (n : nat) (s : string) : string :=
  match n, s with
  | S n', String _ s' => drop n' s'
  | _, _ => s
  end.

(** The code units of [s] at positions [from <= i < to]. *)
Definition slice (s : string) (from to : nat) : string :=
  take (to - from) (drop from s).

(** An integer argument of [substring], clamped into [0 .. length]. *)
Definition clampIndex (len : nat) (i : Z) : nat :=
  Z.to_nat (Z.min (Z.max i 0) (Z.of_nat len)).

(** [s.substring(a, b)]: both arguments are clamped to [0 .. s.length],
    and they are swapped when the first is the larger. *)
Definition substring (s : string) (a b : Z) : string :=
  let a' := clampIndex (String.length s) a in
  let b' := clampIndex (String.length s) b in
  slice s (Nat.min a' b') (Nat.max a' b').

(** [s.substring(a)]: the end defaults to [s.length]. *)
Definition substringFrom (s : string) (a : Z) : string :=
  substring s a (Z.of_nat (String.length s)).

(** White space and line terminators removed by [trim], among the code
    units below 256: TAB, LF, VT, FF, CR, SPACE and NBSP. *)
Definition isWhiteSpace (c : ascii) : bool :=
  let n := nat_of_ascii c in
  ((9 <=? n) && (n <=? 13) || (n =? 32) || (n =? 160))%nat.

Fixpoint trimStart (s : string) : string :=
  match s with
  | String c s' => if isWhiteSpace c then trimStart s' else s
  | EmptyString => EmptyString
  end.

Fixpoint trimEnd (s : string) : string :=
  match s with
  | String c s' =>
      match trimEnd s' with
      | EmptyString => if isWhiteSpace c then EmptyString else String c EmptyString
      | t => String c t
      end
  | EmptyString => EmptyString
  end.

(** [s.trim()] *)
Definition trim (s : string) : string := trimEnd (trimStart s).

(** A string is falsy exactly when it is empty. *)
Definition truthy (s : string) : bool :=
  match s with EmptyString => false | _ => true end.

Definition newline : ascii := ascii_of_nat 10.

(** [s.split(/(\n)/)]: the pieces between line feeds, with each line feed
    kept as a piece of its own (the capture group). *)
Fixpoint splitKeepNewlines (s : string) : list string :=
  match s with
  | EmptyString => [EmptyString]
  | String c s' =>
      if Ascii.eqb c newline
      then EmptyString :: String newline EmptyString :: splitKeepNewlines s'
      else match splitKeepNewlines s' with
           | piece :: rest => String c piece :: rest
           | [] => [String c EmptyString]
           end
  end.

(** ** Arrays *)

Section Sort.
Context {A : Type}.
(** The comparator: negative, zero or positive. *)
Variable compareFn : A -> A -> Z.

(** [x] goes in front of the first element it does not compare
    greater than, so behind all the elements it compares equal to
    that were in front of that one. *)
Fixpoint insert (x : A) (l : list A) : list A :=
  match l with
  | [] => [x]
  | y :: l' => if compareFn x y >? 0 then y :: insert x l' else x :: y :: l'
  end.

(** [arr.sort(compareFn)].  The sort is stable (ECMAScript 2019), so
    for a consistent comparator its result is determined: the sorted
    permutation that keeps equal elements in their order.  Insertion
    from the right computes it. *)
Definition sort (l : list A) : list A := fold_right insert [] l.
End Sort.

(** ** Numbers

    A Number is an IEEE 754 binary64 value; [spec_float] with precision
    53 and maximal exponent 1024 is that format, and the [SF] operations
    round to nearest, ties to even, as the language does. *)

Definition number : Type := spec_float.

Definition prec : Z := 53.
Definition emax : Z := 1024.

Definition NaN : number := S754_nan.
Definition zero : number := S754_zero false.
Definition ofZ (n : Z) : number := binary_normalize prec emax n 0 false.

Definition add (x y : number) : number := SFadd prec emax x y.
Definition mul (x y : number) : number := SFmul prec emax x y.
Definition div (x y : number) : number := SFdiv prec emax x y.

(** [x > y], [x <= y] and [x == y] on Numbers: false as soon as one side
    is NaN. *)
Definition gt (x y : number) : bool := SFltb y x.
Definition le (x y : number) : bool := SFleb x y.
Definition eq (x y : number) : bool := SFeqb x y.

Definition isNaN (x : number) : bool :=
  match x with S754_nan => true | _ => false end.

(** A Number is falsy when it is [+0], [-0] or NaN. *)
Definition truthyNumber (x : number) : bool :=
  match x with S754_zero _ | S754_nan => false | _ => true end.

(** [x || 0] *)
Definition orZero (x : number) : number := if truthyNumber x then x else zero.

Definition isNegZero (x : number) : bool :=
  match x with S754_zero true => true | _ => false end.

(** [Math.max(a, b)]: NaN if an argument is NaN; [+0] is larger than
    [-0]. *)
Definition Math_max (a b : number) : number :=
  match SFcompare a b with
  | Some Lt => b
  | Some Gt => a
  | Some Eq => if isNegZero a then b else a
  | None => NaN
  end.

(** [Math.min(a, b)]: NaN if an argument is NaN; [-0] is smaller than
    [+0]. *)
Definition Math_min (a b : number) : number :=
  match SFcompare a b with
  | Some Lt => a
  | Some Gt => b
  | Some Eq => if isNegZero a then a else b
  | None => NaN
  end.

(** [Math.round(x)]: the integral Number closest to [x], the one nearer
    to [+Infinity] on a tie; [x] itself when it is integral, infinite or
    NaN; a zero of the sign of [x] when the result is zero. *)
Definition Math_round (x : number) : number :=
  match x with
  | S754_finite s m e =>
      if 0 <=? e then x
      else
        let d := 2 ^ (- e) in
        let twice := if s then - (2 * Z.pos m) else 2 * Z.pos m in
        let n := (twice + d) / (2 * d) in
        if n =? 0 then S754_zero s else ofZ n
  | _ => x
  end.

(** ** [Number(s)] for a string [s] (StringToNumber)

    White space is trimmed; the empty string is [+0]; [0x], [0o] and
    [0b] introduce an unsigned integer in that radix; otherwise an
    optional sign is followed by [Infinity] or by decimal digits with an
    optional fraction and exponent.  Anything else is NaN.  The value is
    rounded to the nearest Number. *)

Definition digitOf (radix : Z) (c : ascii) : option Z :=
  let n := Z.of_nat (nat_of_ascii c) in
  let v := if (48 <=? n) && (n <=? 57) then n - 48
           else if (97 <=? n) && (n <=? 102) then n - 87
           else if (65 <=? n) && (n <=? 70) then n - 55
           else radix in
  if v <? radix then Some v else None.

(** The longest run of digits at the head of [s]: its value on top of
    [acc], the number of digits read, and what follows them. *)
Fixpoint readDigits (radix : Z) (s : string) (acc : Z) (count : nat)
    : Z * nat * string :=
  match s with
  | String c s' =>
      match digitOf radix c with
      | Some v => readDigits radix s' (acc * radix + v) (S count)
      | None => (acc, count, s)
      end
  | EmptyString => (acc, count, s)
  end.

Definition readSign (s : string) : bool * string :=
  match s with
  | String "-"%char s' => (true, s')
  | String "+"%char s' => (false, s')
  | _ => (false, s)
  end.

(** [m * 10 ^ e] for [m > 0], rounded to the nearest Number. *)
Definition decimalToNumber (sign : bool) (m : positive) (e : Z) : number :=
  if 0 <=? e
  then binary_normalize prec emax
         ((if sign then Z.neg m else Z.pos m) * 10 ^ e) 0 false
  else SFdiv prec emax (S754_finite sign m 0)
                       (S754_finite false (Z.to_pos (10 ^ (- e))) 0).

Definition nonDecimalLiteral (radix : Z) (digits : string) : number :=
  match readDigits radix digits 0 O with
  | (v, S _, EmptyString) => ofZ v
  | _ => NaN
  end.

Definition unsignedDecimalLiteral (sign : bool) (s : string) : number :=
  if String.eqb s "Infinity" then S754_infinity sign
  else
    let '(intPart, intCount, afterInt) := readDigits 10 s 0 O in
    let '(mantissa, fracCount, afterFrac) :=
      match afterInt with
      | String "."%char s' => readDigits 10 s' intPart O
      | _ => (intPart, O, afterInt)
      end in
    if (intCount + fracCount =? 0)%nat then NaN
    else
      let exponent :=
        match afterFrac with
        | EmptyString => Some 0
        | String c s' =>
            if Ascii.eqb c "e"%char || Ascii.eqb c "E"%char
            then
              let '(negative, digits) := readSign s' in
              match readDigits 10 digits 0 O with
              | (v, S _, EmptyString) => Some (if negative then - v else v)
              | _ => None
              end
            else None
        end in
      match exponent, mantissa with
      | Some e, Z.pos m => decimalToNumber sign m (e - Z.of_nat fracCount)
      | Some _, _ => S754_zero sign
      | None, _ => NaN
      end.

Definition StringToNumber (s : string) : number :=
  match trim s with
  | EmptyString => zero
  | String "0"%char (String c digits) as t =>
      if Ascii.eqb c "x"%char || Ascii.eqb c "X"%char
      then nonDecimalLiteral 16 digits
      else if Ascii.eqb c "o"%char || Ascii.eqb c "O"%char
      then nonDecimalLiteral 8 digits
      else if Ascii.eqb c "b"%char || Ascii.eqb c "B"%char
      then nonDecimalLiteral 2 digits
      else unsignedDecimalLiteral false t
  | t => let '(sign, rest) := readSign t in unsignedDecimalLiteral sign rest
  end.

End JS.

(* ===================================================================== *)
(** * Data model *)
(* ===================================================================== *)

(** [interface InlineComment].  Offsets are integer-valued numbers. *)
Module InlineComment.
Record t : Type := mk {
  id : string;
  startIndex : Z;
  endIndex : Z;
  text : string;
  color : string;
  timestamp : string;
  author : string;
  isAIGenerated : option bool;
  _id : option string
}.

(** [{ ...c, text: newText }] *)
Definition withText (c : t) (newText : string) : t :=
  mk (id c) (startIndex c) (endIndex c) newText (color c) (timestamp c)
     (author c) (isAIGenerated c) (_id c).

(** [{ ...c, id: c._id || c.id }] *)
Definition withDbId (c : t) : t :=
  let newId := match _id c with
               | Some d => if JS.truthy d then d else id c
               | None => id c
               end in
  mk newId (startIndex c) (endIndex c) (text c) (color c) (timestamp c)
     (author c) (isAIGenerated c) (_id c).
End InlineComment.

(** [Omit<InlineComment, 'id' | 'color' | '_id'>], the argument of
    [addInlineComment]. *)
Module CommentDraft.
Record t : Type := mk {
  startIndex : Z;
  endIndex : Z;
  text : string;
  timestamp : string;
  author : string;
  isAIGenerated : option bool
}.
End CommentDraft.

(** [interface SubScore] *)
Module SubScore.
Record t : Type := mk {
  _id : option string;
  name : string;
  score : JS.number;
  maxScore : JS.number;
  rationale : string
}.

(** The same object after [item.score = v]. *)
Definition withScore (s : t) (v : JS.number) : t :=
  mk (_id s) (name s) v (maxScore s) (rationale s).
End SubScore.

(** [interface OverallFeedback] *)
Module OverallFeedback.
Record t : Type := mk {
  strengths : string;
  improvements : string;
  actionItems : string
}.
Definition empty : t := mk "" "" "".
End OverallFeedback.

(** [interface AICheckerResult]; the per-section details play no part in
    the handlers and are left out. *)
Module AICheckerResult.
Record t : Type := mk {
  score : JS.number;
  confidence : string
}.
End AICheckerResult.

(** [interface SubmissionDetails], with the fields the handlers read or
    write: the submission text is [content]. *)
Module SubmissionDetails.
Record t : Type := mk {
  _id : string;
  content : string;
  score : option JS.number;
  subScores : option (list SubScore.t);
  overallFeedback : option OverallFeedback.t;
  inlineComments : option (list InlineComment.t);
  aiCheckerResults : option AICheckerResult.t
}.

(** [{ ...prev, aiCheckerResults: r }] *)
Definition withAiCheckerResults (d : t) (r : AICheckerResult.t) : t :=
  mk (_id d) (content d) (score d) (subScores d) (overallFeedback d)
     (inlineComments d) (Some r).
End SubmissionDetails.

(** The offsets held in the [selectionRange] state: [{ start, end }]. *)
Module SelectionRange.
Record t : Type := mk { start : Z; end_ : Z }.
End SelectionRange.

(** A notification shown with [toast(...)]. *)
Module Toast.
Inductive Variant : Type := normal | destructive.
Record t : Type := mk {
  title : string;
  description : string;
  variant : Variant
}.
End Toast.

(** The React state of [SubmissionReviewPage], and the log of the toasts
    shown so far. *)
Module Page.
Record t : Type := mk {
  submissionDetails : option SubmissionDetails.t;
  isLoading : bool;
  isAnalyzing : bool;
  error : option string;
  inlineComments : list InlineComment.t;
  overallFeedback : OverallFeedback.t;
  subScores : list SubScore.t;
  finalScore : JS.number;
  newCommentText : string;
  selectedText : string;
  selectionRange : option SelectionRange.t;
  activeCommentId : option string;
  isCommentMode : bool;
  toasts : list Toast.t
}.

(** The state hooks' initial values. *)
Definition initial : t :=
  mk None true false None [] OverallFeedback.empty [] JS.zero
     "" "" None None false [].

Definition setSubmissionDetails (v : option SubmissionDetails.t) (p : t) : t :=
  mk v (isLoading p) (isAnalyzing p) (error p) (inlineComments p)
     (overallFeedback p) (subScores p) (finalScore p) (newCommentText p)
     (selectedText p) (selectionRange p) (activeCommentId p)
     (isCommentMode p) (toasts p).
Definition setIsLoading (v : bool) (p : t) : t :=
  mk (submissionDetails p) v (isAnalyzing p) (error p) (inlineComments p)
     (overallFeedback p) (subScores p) (finalScore p) (newCommentText p)
     (selectedText p) (selectionRange p) (activeCommentId p)
     (isCommentMode p) (toasts p).
Definition setIsAnalyzing (v : bool) (p : t) : t :=
  mk (submissionDetails p) (isLoading p) v (error p) (inlineComments p)
     (overallFeedback p) (subScores p) (finalScore p) (newCommentText p)
     (selectedText p) (selectionRange p) (activeCommentId p)
     (isCommentMode p) (toasts p).
Definition setError (v : option string) (p : t) : t :=
  mk (submissionDetails p) (isLoading p) (isAnalyzing p) v (inlineComments p)
     (overallFeedback p) (subScores p) (finalScore p) (newCommentText p)
     (selectedText p) (selectionRange p) (activeCommentId p)
     (isCommentMode p) (toasts p).
Definition setInlineComments (v : list InlineComment.t) (p : t) : t :=
  mk (submissionDetails p) (isLoading p) (isAnalyzing p) (error p) v
     (overallFeedback p) (subScores p) (finalScore p) (newCommentText p)
     (selectedText p) (selectionRange p) (activeCommentId p)
     (isCommentMode p) (toasts p).
Definition setOverallFeedback (v : OverallFeedback.t) (p : t) : t :=
  mk (submissionDetails p) (isLoading p) (isAnalyzing p) (error p)
     (inlineComments p) v (subScores p) (finalScore p) (newCommentText p)
     (selectedText p) (selectionRange p) (activeCommentId p)
     (isCommentMode p) (toasts p).
Definition setSubScores (v : list SubScore.t) (p : t) : t :=
  mk (submissionDetails p) (isLoading p) (isAnalyzing p) (error p)
     (inlineComments p) (overallFeedback p) v (finalScore p)
     (newCommentText p) (selectedText p) (selectionRange p)
     (activeCommentId p) (isCommentMode p) (toasts p).
Definition setFinalScore (v : JS.number) (p : t) : t :=
  mk (submissionDetails p) (isLoading p) (isAnalyzing p) (error p)
     (inlineComments p) (overallFeedback p) (subScores p) v
     (newCommentText p) (selectedText p) (selectionRange p)
     (activeCommentId p) (isCommentMode p) (toasts p).
Definition setNewCommentText (v : string) (p : t) : t :=
  mk (submissionDetails p) (isLoading p) (isAnalyzing p) (error p)
     (inlineComments p) (overallFeedback p) (subScores p) (finalScore p) v
     (selectedText p) (selectionRange p) (activeCommentId p)
     (isCommentMode p) (toasts p).
Definition setSelectedText (v : string) (p : t) : t :=
  mk (submissionDetails p) (isLoading p) (isAnalyzing p) (error p)
     (inlineComments p) (overallFeedback p) (subScores p) (finalScore p)
     (newCommentText p) v (selectionRange p) (activeCommentId p)
     (isCommentMode p) (toasts p).
Definition setSelectionRange (v : option SelectionRange.t) (p : t) : t :=
  mk (submissionDetails p) (isLoading p) (isAnalyzing p) (error p)
     (inlineComments p) (overallFeedback p) (subScores p) (finalScore p)
     (newCommentText p) (selectedText p) v (activeCommentId p)
     (isCommentMode p) (toasts p).
Definition setActiveCommentId (v : option string) (p : t) : t :=
  mk (submissionDetails p) (isLoading p) (isAnalyzing p) (error p)
     (inlineComments p) (overallFeedback p) (subScores p) (finalScore p)
     (newCommentText p) (selectedText p) (selectionRange p) v
     (isCommentMode p) (toasts p).
Definition setIsCommentMode (v : bool) (p : t) : t :=
  mk (submissionDetails p) (isLoading p) (isAnalyzing p) (error p)
     (inlineComments p) (overallFeedback p) (subScores p) (finalScore p)
     (newCommentText p) (selectedText p) (selectionRange p)
     (activeCommentId p) v (toasts p).
Definition show (n : Toast.t) (p : t) : t :=
  mk (submissionDetails p) (isLoading p) (isAnalyzing p) (error p)
     (inlineComments p) (overallFeedback p) (subScores p) (finalScore p)
     (newCommentText p) (selectedText p) (selectionRange p)
     (activeCommentId p) (isCommentMode p)
     (toasts p ++ [n]).
(** [toast({ title, description })] *)
Definition toast (title description : string) (p : t) : t :=
  show (Toast.mk title description Toast.normal) p.
(** [toast({ title, description, variant: "destructive" })] *)
Definition toastDestructive (title description : string) (p : t) : t :=
  show (Toast.mk title description Toast.destructive) p.

(** [submissionDetails?.content], with a missing value read as the empty
    string (both are falsy). *)
Definition content (p : t) : string :=
  match submissionDetails p with
  | Some d => SubmissionDetails.content d
  | None => ""
  end.
End Page.

(* ===================================================================== *)
(** * The rendered view and the browser's selection *)
(* ===================================================================== *)

Module DOM.

(** The text of a list of text nodes, in document order. *)
Definition textContent (nodes : list string) : string :=
  fold_right String.append EmptyString nodes.

(** What [handleTextSelection] reads from [window.getSelection()].  The
    start of the first range is a point inside a text node of the content
    element: the index of the node among the element's text nodes, and
    an offset into it.  A boundary point between two text nodes is the
    point at offset 0 of the second. *)
Record Selection : Type := mkSelection {
  rangeCount : nat;
  (** [contentRef.current?.contains(selection.anchorNode)] *)
  anchorInContent : bool;
  startContainer : nat;
  startOffset : nat;
  (** [selection.toString()] *)
  toString : string
}.

(** [toString()] of the range that runs from the beginning of the content
    element to the point [(node, offset)]: the text nodes in front of
    [node], then the first [offset] code units of [node]. *)
Definition textBefore (view : list string) (node offset : nat) : string :=
  String.append (textContent (firstn node view))
                (JS.take offset (nth node view EmptyString)).

End DOM.

(* ===================================================================== *)
(** * renderHighlightedContent *)
(* ===================================================================== *)

Module Segment.
(** [{ type: 'text', content }] or [{ type: 'highlight', content, comment }] *)
Inductive t : Type :=
| text (content : string)
| highlight (content : string) (comment : InlineComment.t).

Definition content (s : t) : string :=
  match s with
  | text c => c
  | highlight c _ => c
  end.
End Segment.

Module Span.
(** The [<span>] elements a paragraph is made of. *)
Inductive t : Type :=
| plain (line : string)
| highlighted (content : string) (comment : InlineComment.t) (isActive : bool).

Definition text (s : t) : string :=
  match s with
  | plain l => l
  | highlighted c _ _ => c
  end.
End Span.

(** What [renderHighlightedContent] returns: one of the two italic
    placeholder paragraphs, or the list of [<p>] elements. *)
Inductive Rendered : Type :=
| placeholder (message : string)
| paragraphs (ps : list (list Span.t)).

(** [(a, b) => a.startIndex - b.startIndex] *)
Definition compareByStart (a b : InlineComment.t) : Z :=
  InlineComment.startIndex a - InlineComment.startIndex b.

(** The body of the [forEach] over the sorted comments; the accumulator is
    [(segments, lastIndex)]. *)
Definition pushComment (content : string) (acc : list Segment.t * Z)
    (comment : InlineComment.t) : list Segment.t * Z :=
  let '(segments, lastIndex) := acc in
  let segments :=
    if InlineComment.startIndex comment >? lastIndex
    then segments ++ [Segment.text
           (JS.substring content lastIndex (InlineComment.startIndex comment))]
    else segments in
  (segments ++ [Segment.highlight
      (JS.substring content (InlineComment.startIndex comment)
                            (InlineComment.endIndex comment)) comment],
   InlineComment.endIndex comment).

(** The first half of [renderHighlightedContent]: the [segments] array. *)
Definition buildSegments (content : string)
    (inlineComments : list InlineComment.t) : list Segment.t :=
  let '(segments, lastIndex) :=
    fold_left (pushComment content)
              (JS.sort compareByStart inlineComments) ([], 0) in
  if lastIndex <? Z.of_nat (String.length content)
  then segments ++ [Segment.text (JS.substringFrom content lastIndex)]
  else segments.

Definition nonEmpty {A : Type} (l : list A) : bool :=
  match l with [] => false | _ => true end.

(** [comment.id === activeCommentId] *)
Definition isActiveComment (activeCommentId : option string)
    (comment : InlineComment.t) : bool :=
  match activeCommentId with
  | Some a => String.eqb (InlineComment.id comment) a
  | None => false
  end.

(** One piece of a split text segment; the accumulator is
    [(renderedParagraphs, currentParagraph)]. *)
Definition pushLine (acc : list (list Span.t) * list Span.t) (line : string)
    : list (list Span.t) * list Span.t :=
  let '(renderedParagraphs, currentParagraph) := acc in
  if String.eqb line (String JS.newline EmptyString)
  then ((if nonEmpty currentParagraph
         then renderedParagraphs ++ [currentParagraph]
         else renderedParagraphs), [])
  else if JS.truthy line
       then (renderedParagraphs, currentParagraph ++ [Span.plain line])
       else acc.

(** The body of the second [forEach], over the segments. *)
Definition layoutSegment (activeCommentId : option string)
    (acc : list (list Span.t) * list Span.t) (segment : Segment.t)
    : list (list Span.t) * list Span.t :=
  match segment with
  | Segment.text content =>
      fold_left pushLine (JS.splitKeepNewlines content) acc
  | Segment.highlight content comment =>
      (fst acc,
       snd acc ++ [Span.highlighted content comment
                     (isActiveComment activeCommentId comment)])
  end.

Definition renderHighlightedContent (p : Page.t) : Rendered :=
  if negb (JS.truthy (Page.content p))
  then placeholder "No submission content available."
  else
    let segments := buildSegments (Page.content p) (Page.inlineComments p) in
    let '(renderedParagraphs, currentParagraph) :=
      fold_left (layoutSegment (Page.activeCommentId p)) segments ([], []) in
    let renderedParagraphs :=
      if nonEmpty currentParagraph
      then renderedParagraphs ++ [currentParagraph]
      else renderedParagraphs in
    if nonEmpty renderedParagraphs
    then paragraphs renderedParagraphs
    else placeholder "Submission content seems empty.".

(** The segments [renderHighlightedContent] builds on its way: none when
    it returns early for a missing or empty text. *)
Definition renderedSegments (p : Page.t) : list Segment.t :=
  if negb (JS.truthy (Page.content p)) then []
  else buildSegments (Page.content p) (Page.inlineComments p).

(** The concatenation of the segments' [content] strings. *)
Definition segmentsText (segments : list Segment.t) : string :=
  DOM.textContent (map Segment.content segments).

(** The text nodes of the content element after rendering; an empty string
    makes no text node, and the icon badge of a highlight has no text. *)
Definition textNodes (r : Rendered) : list string :=
  match r with
  | placeholder message => [message]
  | paragraphs ps =>
      flat_map (fun para => filter JS.truthy (map Span.text para)) ps
  end.

(** The comments as the sidebar lists them:
    [inlineComments.sort((a, b) => a.startIndex - b.startIndex)].  The sort
    is in place, on the array held in the state, so the state holds the
    sorted array afterwards. *)
Definition sidebarComments (p : Page.t) : list InlineComment.t * Page.t :=
  let sorted := JS.sort compareByStart (Page.inlineComments p) in
  (sorted, Page.setInlineComments sorted p).

(* ===================================================================== *)
(** * Event handlers *)
(* ===================================================================== *)

Local Open Scope string_scope.

(** The five highlight classes of [getRandomHighlightColor], and the index
    [Math.floor(Math.random() * colors.length)] picks. *)
Inductive PaletteIndex : Type := P0 | P1 | P2 | P3 | P4.

Definition getRandomHighlightColor (pick : PaletteIndex) : string :=
  match pick with
  | P0 => "bg-yellow-200/70"
  | P1 => "bg-green-200/70"
  | P2 => "bg-blue-200/70"
  | P3 => "bg-purple-200/70"
  | P4 => "bg-pink-200/70"
  end.

(** What the clock and the random generator give to the creation of one
    comment. *)
Module Fresh.
Record t : Type := mk {
  (** [Date.now()], in decimal digits *)
  dateNow : string;
  (** [Math.random().toString(16).slice(2)] *)
  randomHex : string;
  colorPick : PaletteIndex;
  (** [new Date().toISOString()] *)
  isoNow : string
}.
End Fresh.

(** [setSelectedText(""); setSelectionRange(null); setNewCommentText("")] *)
Definition clearSelection (p : Page.t) : Page.t :=
  Page.setNewCommentText ""
    (Page.setSelectionRange None (Page.setSelectedText "" p)).

(** [handleTextSelection], the [onMouseUp] handler of the content element.
    [view] is the list of text nodes the element holds, [selection] is
    [window.getSelection()].  The timer that scrolls the new-comment box
    into view changes no state. *)
Definition handleTextSelection (view : list string)
    (selection : option DOM.Selection) (p : Page.t) : Page.t :=
  if negb (Page.isCommentMode p) then p
  else
    match selection with
    | None => clearSelection p
    | Some sel =>
        if (DOM.rangeCount sel =? 0)%nat || negb (DOM.anchorInContent sel)
        then clearSelection p
        else
          let text := JS.trim (DOM.toString sel) in
          if negb (JS.truthy text) then clearSelection p
          else
            let start :=
              Z.of_nat (String.length
                (DOM.textBefore view (DOM.startContainer sel)
                                     (DOM.startOffset sel))) in
            let end_ := (start + Z.of_nat (String.length text))%Z in
            Page.setActiveCommentId None
              (Page.setNewCommentText ""
                (Page.setSelectionRange (Some (SelectionRange.mk start end_))
                  (Page.setSelectedText text p)))
    end.

(** [isAIGenerated] read as a condition: missing and [false] are falsy. *)
Definition isAI (flag : option bool) : bool :=
  match flag with Some true => true | _ => false end.

(** [addInlineComment].  The timer that scrolls to the new comment sets
    [activeCommentId] to the same id once more and is left out. *)
Definition addInlineComment (fresh : Fresh.t) (commentToAdd : CommentDraft.t)
    (p : Page.t) : Page.t :=
  let tempId := "temp-" ++ Fresh.dateNow fresh ++ "-" ++ Fresh.randomHex fresh in
  let newComment :=
    InlineComment.mk tempId
      (CommentDraft.startIndex commentToAdd)
      (CommentDraft.endIndex commentToAdd)
      (CommentDraft.text commentToAdd)
      (getRandomHighlightColor (Fresh.colorPick fresh))
      (CommentDraft.timestamp commentToAdd)
      (CommentDraft.author commentToAdd)
      (CommentDraft.isAIGenerated commentToAdd)
      None in
  let p := Page.setInlineComments (Page.inlineComments p ++ [newComment]) p in
  let p :=
    if negb (isAI (CommentDraft.isAIGenerated commentToAdd))
    then Page.toast "Comment added locally" "Save changes to persist."
           (Page.setSelectionRange None
             (Page.setSelectedText "" (Page.setNewCommentText "" p)))
    else p in
  Page.setActiveCommentId (Some (InlineComment.id newComment)) p.

(** [handleAddCommentClick].  [userName] is the [name] of the user object
    kept in local storage, when there is one; the stored item is taken to
    be well-formed JSON. *)
Definition handleAddCommentClick (fresh : Fresh.t) (userName : option string)
    (p : Page.t) : Page.t :=
  match Page.selectionRange p with
  | None => p
  | Some selectionRange =>
      if negb (JS.truthy (JS.trim (Page.newCommentText p))) then p
      else
        addInlineComment fresh
          (CommentDraft.mk
             (SelectionRange.start selectionRange)
             (SelectionRange.end_ selectionRange)
             (Page.newCommentText p)
             (Fresh.isoNow fresh)
             (match userName with
              | Some n => if JS.truthy n then n else "Anonymous"
              | None => "Anonymous"
              end)
             (Some false))
          p
  end.

(** The value a call evaluates to. *)
Inductive ReturnValue : Type :=
| undefined
| boolean (b : bool).

(** [activeCommentId === idToRemove] *)
Definition isActiveId (activeCommentId : option string) (i : string) : bool :=
  match activeCommentId with
  | Some a => String.eqb a i
  | None => false
  end.

(** [removeInlineComment]: the function has no [return] statement, so a
    call evaluates to [undefined]. *)
Definition removeInlineComment (idToRemove : string) (p : Page.t)
    : ReturnValue * Page.t :=
  let p' :=
    Page.setInlineComments
      (filter (fun c => negb (String.eqb (InlineComment.id c) idToRemove))
              (Page.inlineComments p)) p in
  let p' :=
    if isActiveId (Page.activeCommentId p) idToRemove
    then Page.setActiveCommentId None p' else p' in
  (undefined,
   Page.toastDestructive "Comment removed locally" "Save changes to persist." p').

(** [updateCommentText] *)
Definition updateCommentText (idToUpdate newText : string) (p : Page.t)
    : Page.t :=
  Page.toast "Comment updated locally" "Save changes to persist."
    (Page.setInlineComments
       (map (fun c => if String.eqb (InlineComment.id c) idToUpdate
                      then InlineComment.withText c newText else c)
            (Page.inlineComments p)) p).

(** ** The AI analysis request *)

(** One element of [analysisResult.suggestedInlineComments]. *)
Module Suggestion.
Record t : Type := mk {
  startIndex : Z;
  endIndex : Z;
  text : string
}.
End Suggestion.

(** The body of a successful answer of [/ai/analyze-submission].  A field
    of the suggested feedback that is missing is the empty string. *)
Module AnalysisResult.
Record t : Type := mk {
  suggestedOverallFeedback : option OverallFeedback.t;
  suggestedInlineComments : option (list Suggestion.t);
  aiCheckResults : option AICheckerResult.t
}.
End AnalysisResult.

(** How an awaited request ends: [failed] is everything that lands in the
    [catch] block with its [message] (no connection, a status that is not
    ok), [succeeded] carries the parsed body. *)
Inductive Response (A : Type) : Type :=
| failed (message : string)
| succeeded (body : A).
Arguments failed {A} message.
Arguments succeeded {A} body.

(** [a || b] on strings *)
Definition orElse (a b : string) : string := if JS.truthy a then a else b.

Fixpoint mapi {A B : Type} (f : nat -> A -> B) (i : nat) (l : list A) : list B :=
  match l with
  | [] => []
  | x :: l' => f i x :: mapi f (S i) l'
  end.

(** The comment built from the [i]-th suggestion. *)
Definition suggestedComment (fresh : nat -> Fresh.t) (i : nat)
    (suggestion : Suggestion.t) : InlineComment.t :=
  InlineComment.mk
    ("temp-ai-" ++ Fresh.dateNow (fresh i) ++ "-" ++ Fresh.randomHex (fresh i))
    (Suggestion.startIndex suggestion)
    (Suggestion.endIndex suggestion)
    (Suggestion.text suggestion)
    (getRandomHighlightColor (Fresh.colorPick (fresh i)))
    (Fresh.isoNow (fresh i))
    "AI Assistant"
    (Some true)
    None.

(** [handleAnalyzeWithAI] up to its [await]: the state it leaves behind,
    and, when the request is sent, the [submissionDetails] its closure
    holds on to.  [token] is the item read from local storage. *)
Definition handleAnalyzeWithAI_request (token : option string) (p : Page.t)
    : Page.t * option SubmissionDetails.t :=
  match Page.submissionDetails p with
  | None => (p, None)
  | Some details =>
      if negb (JS.truthy (SubmissionDetails.content details)) then (p, None)
      else
        let p := Page.setError None (Page.setIsAnalyzing true p) in
        match token with
        | Some tk =>
            if JS.truthy tk then (p, Some details)
            else (Page.setIsAnalyzing false p, None)
        | None => (Page.setIsAnalyzing false p, None)
        end
  end.

(** [handleAnalyzeWithAI] from the moment its request completes.
    [captured] is the [submissionDetails] of the closure; [p] is the state
    at that moment. *)
Definition handleAnalyzeWithAI_response (captured : SubmissionDetails.t)
    (fresh : nat -> Fresh.t) (response : Response AnalysisResult.t)
    (p : Page.t) : Page.t :=
  match response with
  | failed message =>
      Page.setIsAnalyzing false
        (Page.setError (Some message)
          (Page.toastDestructive "AI Analysis Error" message p))
  | succeeded analysisResult =>
      let p :=
        match AnalysisResult.suggestedOverallFeedback analysisResult with
        | Some suggested =>
            let prev := Page.overallFeedback p in
            Page.setOverallFeedback
              (OverallFeedback.mk
                 (orElse (OverallFeedback.strengths prev)
                         (OverallFeedback.strengths suggested))
                 (orElse (OverallFeedback.improvements prev)
                         (OverallFeedback.improvements suggested))
                 (orElse (OverallFeedback.actionItems prev)
                         (OverallFeedback.actionItems suggested))) p
        | None => p
        end in
      let p :=
        match AnalysisResult.suggestedInlineComments analysisResult with
        | Some (s :: rest) =>
            let newAIComments := mapi (suggestedComment fresh) 0 (s :: rest) in
            Page.setInlineComments (Page.inlineComments p ++ newAIComments) p
        | _ => p
        end in
      let p :=
        match AnalysisResult.aiCheckResults analysisResult,
              SubmissionDetails.aiCheckerResults captured with
        | Some r, None =>
            Page.setSubmissionDetails
              (option_map (fun prev => SubmissionDetails.withAiCheckerResults prev r)
                          (Page.submissionDetails p)) p
        | _, _ => p
        end in
      Page.setIsAnalyzing false
        (Page.toast "AI Analysis Complete" "Suggestions added." p)
  end.

(** ** Loading a submission *)

(** [defaultRubric] *)
Definition defaultRubric : list (string * JS.number) :=
  [ ("Content/Understanding", JS.ofZ 30);
    ("Organization/Structure", JS.ofZ 25);
    ("Evidence/Support", JS.ofZ 25);
    ("Clarity/Mechanics", JS.ofZ 20) ].

(** [fetchSubmissionDetails] up to its [await]: every grading state is
    reset; the flag tells whether the request is sent. *)
Definition fetchSubmissionDetails_request (token : option string) (p : Page.t)
    : Page.t * bool :=
  let p :=
    Page.setFinalScore JS.zero
      (Page.setSubScores []
        (Page.setOverallFeedback OverallFeedback.empty
          (Page.setInlineComments []
            (Page.setSubmissionDetails None
              (Page.setError None (Page.setIsLoading true p)))))) in
  match token with
  | Some tk =>
      if JS.truthy tk then (p, true)
      else (Page.setIsLoading false
              (Page.setError (Some "Authentication required.") p), false)
  | None => (Page.setIsLoading false
               (Page.setError (Some "Authentication required.") p), false)
  end.

Definition hasFeedback (f : OverallFeedback.t) : bool :=
  JS.truthy (OverallFeedback.strengths f)
  || JS.truthy (OverallFeedback.improvements f)
  || JS.truthy (OverallFeedback.actionItems f).

(** [{ ...s, _id: s._id || undefined }] *)
Definition normalizeSubScoreId (s : SubScore.t) : SubScore.t :=
  SubScore.mk
    (match SubScore._id s with
     | Some i => if JS.truthy i then Some i else None
     | None => None
     end)
    (SubScore.name s) (SubScore.score s) (SubScore.maxScore s)
    (SubScore.rationale s).

(** [fetchSubmissionDetails] from the moment its request completes: the
    submission, and with it the text under review, is replaced. *)
Definition fetchSubmissionDetails_response
    (response : Response SubmissionDetails.t) (p : Page.t) : Page.t :=
  match response with
  | failed message =>
      Page.setIsLoading false
        (Page.setError (Some (orElse message "Could not connect to the server.")) p)
  | succeeded data =>
      let p := Page.setSubmissionDetails (Some data) p in
      let p :=
        Page.setInlineComments
          (map InlineComment.withDbId
               (match SubmissionDetails.inlineComments data with
                | Some l => l
                | None => []
                end)) p in
      let p :=
        match SubmissionDetails.overallFeedback data with
        | Some f => if hasFeedback f then Page.setOverallFeedback f p else p
        | None => p
        end in
      let p :=
        Page.setFinalScore
          (match SubmissionDetails.score data with
           | Some v => v
           | None => JS.zero
           end) p in
      let p :=
        match SubmissionDetails.subScores data with
        | Some (s :: rest) =>
            Page.setSubScores (map normalizeSubScoreId (s :: rest)) p
        | _ =>
            Page.setFinalScore JS.zero
              (Page.setSubScores
                 (map (fun item => SubScore.mk None (fst item) JS.zero (snd item) "")
                      defaultRubric) p)
        end in
      Page.setIsLoading false p
  end.

(** ** Rubric scores *)

(** The [newScore] argument of [updateSubScore]: [number | string]. *)
Inductive ScoreInput : Type :=
| fromString (s : string)
| fromNumber (x : JS.number).

(** How a call ends: normally, in a new state, or with a thrown error, the
    state left as it was. *)
Inductive Outcome : Type :=
| completed (p : Page.t)
| threw (error : string).

(** [arr[index]] for an integer-valued index: [undefined] outside the
    array. *)
Definition at_ {A : Type} (arr : list A) (index : Z) : option A :=
  if (index <? 0)%Z then None else nth_error arr (Z.to_nat index).

(** The array after [arr[index] = v], for an index inside the array. *)
Fixpoint setAt {A : Type} (arr : list A) (index : nat) (v : A) : list A :=
  match arr, index with
  | [], _ => []
  | _ :: rest, O => v :: rest
  | x :: rest, S i => x :: setAt rest i v
  end.

(** [currentSubScores.reduce((sum, item) => sum + (item.score || 0), 0)] *)
Definition totalScore (currentSubScores : list SubScore.t) : JS.number :=
  fold_left (fun sum item => JS.add sum (JS.orZero (SubScore.score item)))
            currentSubScores JS.zero.

(** [currentSubScores.reduce((sum, item) => sum + (item.maxScore || 0), 0)] *)
Definition totalMaxScore (currentSubScores : list SubScore.t) : JS.number :=
  fold_left (fun sum item => JS.add sum (JS.orZero (SubScore.maxScore item)))
            currentSubScores JS.zero.

(** The value [recalculateFinalScore] computes. *)
Definition newFinalScore (currentSubScores : list SubScore.t) : JS.number :=
  let total := totalScore currentSubScores in
  let max := totalMaxScore currentSubScores in
  if JS.gt max JS.zero
  then JS.Math_round (JS.mul (JS.div total max) (JS.ofZ 100))
  else JS.zero.

Definition recalculateFinalScore (currentSubScores : list SubScore.t)
    (p : Page.t) : Page.t :=
  Page.setFinalScore (newFinalScore currentSubScores) p.

Section UpdateSubScore.

(** [Number(s)] for a string [s]. *)
Variable Number_ : string -> JS.number.

(** [newScore === '' ? 0 : Number(newScore)] *)
Definition scoreValueOf (newScore : ScoreInput) : JS.number :=
  match newScore with
  | fromString EmptyString => JS.zero
  | fromString s => Number_ s
  | fromNumber x => x
  end.

(** [Math.max(0, Math.min(isNaN(scoreValue) ? 0 : scoreValue, maxScore))] *)
Definition clampScore (scoreValue maxScore : JS.number) : JS.number :=
  JS.Math_max JS.zero
    (JS.Math_min (if JS.isNaN scoreValue then JS.zero else scoreValue)
                 maxScore).

(** [updateSubScore].  Reading [maxScore] of [updatedScores[index]]
    throws a TypeError when the index is outside the array.  The copy
    [[...subScores]] shares its objects with the array in the state; both
    are replaced by [updatedScores]. *)
Definition updateSubScore (index : Z) (newScore : ScoreInput) (p : Page.t)
    : Outcome :=
  let scoreValue := scoreValueOf newScore in
  let updatedScores := Page.subScores p in
  match at_ updatedScores index with
  | None => threw "TypeError: Cannot read properties of undefined (reading 'maxScore')"
  | Some item =>
      let maxScore := SubScore.maxScore item in
      let clampedScore := clampScore scoreValue maxScore in
      let updatedScores :=
        setAt updatedScores (Z.to_nat index) (SubScore.withScore item clampedScore) in
      completed
        (recalculateFinalScore updatedScores
           (Page.setSubScores updatedScores p))
  end.

End UpdateSubScore.

(* ===================================================================== *)
(** * Notions used in the statements *)
(* ===================================================================== *)

Local Open Scope Z_scope.

(** The offsets of a comment delimit a non-empty part of the text. *)
Definition validRange (content : string) (c : InlineComment.t) : Prop :=
  0 <= InlineComment.startIndex c
  /\ InlineComment.startIndex c < InlineComment.endIndex c
  /\ InlineComment.endIndex c <= Z.of_nat (String.length content).

(** Two comments cover no common position. *)
Definition apart (a b : InlineComment.t) : Prop :=
  InlineComment.endIndex a <= InlineComment.startIndex b
  \/ InlineComment.endIndex b <= InlineComment.startIndex a.

Definition noOverlap (l : list InlineComment.t) : Prop :=
  ForallOrdPairs apart l.

(** The comments of the highlight segments, in the order of the segments. *)
Definition highlightComments (segments : list Segment.t) : list InlineComment.t :=
  flat_map (fun s => match s with
                     | Segment.highlight _ c => [c]
                     | Segment.text _ => []
                     end) segments.

Definition startsBefore (a b : InlineComment.t) : Prop :=
  InlineComment.startIndex a <= InlineComment.startIndex b.

Definition hasStart (k : Z) (c : InlineComment.t) : bool :=
  InlineComment.startIndex c =? k.

(** The display order in the specification's words: by start offset, and
    by creation time among equal start offsets.  Creation times are ISO
    8601 strings, which the lexicographic order on strings orders by
    time. *)
Definition startThenCreated (a b : InlineComment.t) : Prop :=
  InlineComment.startIndex a < InlineComment.startIndex b
  \/ (InlineComment.startIndex a = InlineComment.startIndex b
      /\ String.leb (InlineComment.timestamp a) (InlineComment.timestamp b) = true).

(** Of two comments with the same start, the first was not created after
    the second. *)
Definition tieInCreationOrder (a b : InlineComment.t) : Prop :=
  InlineComment.startIndex a = InlineComment.startIndex b ->
  String.leb (InlineComment.timestamp a) (InlineComment.timestamp b) = true.

(** [{ ...c, timestamp: f(c.timestamp) }] *)
Definition retime (f : string -> string) (c : InlineComment.t) : InlineComment.t :=
  InlineComment.mk (InlineComment.id c) (InlineComment.startIndex c)
    (InlineComment.endIndex c) (InlineComment.text c) (InlineComment.color c)
    (f (InlineComment.timestamp c)) (InlineComment.author c)
    (InlineComment.isAIGenerated c) (InlineComment._id c).

(** The position of a point of the view, counted in code units from the
    beginning of the view. *)
Definition positionInView (view : list string) (node offset : nat) : nat :=
  (String.length (DOM.textContent (firstn node view))
   + Nat.min offset (String.length (nth node view EmptyString)))%nat.

(** A page that shows [content] with the comments [comments]. *)
Definition pageShowing (content : string) (comments : list InlineComment.t)
    : Page.t :=
  Page.setIsLoading false
    (Page.setInlineComments comments
      (Page.setSubmissionDetails
         (Some (SubmissionDetails.mk "submission-1" content None None None None None))
         Page.initial)).

Module RendererNotions.
(** Each comment of the walk starts where the previous one ended, or
    later, and lies inside the text. *)
Fixpoint chained (len last : Z) (l : list InlineComment.t) : Prop :=
  match l with
  | [] => True
  | c :: l' =>
      last <= InlineComment.startIndex c
      /\ InlineComment.startIndex c <= InlineComment.endIndex c
      /\ InlineComment.endIndex c <= len
      /\ chained len (InlineComment.endIndex c) l'
  end.
End RendererNotions.

(** [toggleCommentMode] *)
Definition toggleCommentMode (p : Page.t) : Page.t :=
  let p' := Page.setIsCommentMode (negb (Page.isCommentMode p)) p in
  if Page.isCommentMode p
  then clearSelection p'
  else Page.toast "Comment mode enabled" "Select text to add comments." p'.

(** Two comments that agree on every field except, possibly, [text]. *)
Definition sameButText (c c' : InlineComment.t) : Prop :=
  InlineComment.id c' = InlineComment.id c
  /\ InlineComment.startIndex c' = InlineComment.startIndex c
  /\ InlineComment.endIndex c' = InlineComment.endIndex c
  /\ InlineComment.color c' = InlineComment.color c
  /\ InlineComment.timestamp c' = InlineComment.timestamp c
  /\ InlineComment.author c' = InlineComment.author c
  /\ InlineComment.isAIGenerated c' = InlineComment.isAIGenerated c
  /\ InlineComment._id c' = InlineComment._id c.

(** The offsets of the comments of a store, in the order of the store. *)
Definition offsetsOf (l : list InlineComment.t) : list (Z * Z) :=
  map (fun c => (InlineComment.startIndex c, InlineComment.endIndex c)) l.

(** The elements of [suggestedInlineComments], none when it is missing. *)
Definition suggestionsOf (r : AnalysisResult.t) : list Suggestion.t :=
  match AnalysisResult.suggestedInlineComments r with
  | Some l => l
  | None => []
  end.

(** The comments a fetched submission brings with it, as
    [fetchSubmissionDetails] stores them. *)
Definition loadedComments (data : SubmissionDetails.t) : list InlineComment.t :=
  map InlineComment.withDbId
      (match SubmissionDetails.inlineComments data with
       | Some l => l
       | None => []
       end).

(** The [score] and the [maxScore] a rubric item holds at [index]. *)
Definition scoreAt (scores : list SubScore.t) (index : Z) : option JS.number :=
  option_map SubScore.score (at_ scores index).

(** What the rubric claim asks of an update at [index]: the call ends
    normally, and the item at [index] then holds a score between 0 and its
    [maxScore]. *)
Definition scoreWithinBounds (o : Outcome) (index : Z) : Prop :=
  exists p' item,
    o = completed p'
    /\ at_ (Page.subScores p') index = Some item
    /\ JS.le JS.zero (SubScore.score item) = true
    /\ JS.le (SubScore.score item) (SubScore.maxScore item) = true.

(** The input counts as no number: the empty string, or a value that is
    NaN once converted. *)
Definition readsAsZero (Number_ : string -> JS.number) (newScore : ScoreInput)
    : Prop :=
  newScore = fromString EmptyString
  \/ JS.isNaN (scoreValueOf Number_ newScore) = true.

(* ===================================================================== *)
(** * Concrete pages *)
(* ===================================================================== *)

Module Examples.

Local Open Scope string_scope.

Definition fox : string := "The quick brown fox".

(** A comment on "quick brown", and a later one on "brown fox". *)
Definition commentA : InlineComment.t :=
  InlineComment.mk "temp-1709287200000-8f3a" 4 15 "Vivid wording."
    "bg-yellow-200/70" "2024-03-01T10:00:00.000Z" "Ms. Rivera" (Some false) None.

Definition commentB : InlineComment.t :=
  InlineComment.mk "temp-1709287500000-c21e" 10 19 "Which fox?"
    "bg-green-200/70" "2024-03-01T10:05:00.000Z" "Ms. Rivera" (Some false) None.

Definition foxPage : Page.t := pageShowing fox [commentA; commentB].

Definition fresh0 : Fresh.t :=
  Fresh.mk "1709290800000" "4be7a1" P2 "2024-03-01T11:00:00.000Z".

Definition freshAt (i : nat) : Fresh.t :=
  match i with
  | O => Fresh.mk "1709290800000" "4be7a1" P2 "2024-03-01T11:00:00.000Z"
  | _ => Fresh.mk "1709290800001" "90c2d4" P4 "2024-03-01T11:00:00.001Z"
  end.

Definition helloPage : Page.t := pageShowing "Hello world" [].



(** "Hello world" in comment mode, a body typed, and a selection range
    that runs backwards. *)
Definition clickPage : Page.t :=
  Page.setNewCommentText "Unclear."
    (Page.setSelectionRange (Some (SelectionRange.mk 8 3))
      (toggleCommentMode helloPage)).

(** A batch of two suggestions: [{0,5}] and [{8,3}]. *)
Definition batch : AnalysisResult.t :=
  AnalysisResult.mk None
    (Some [Suggestion.mk 0 5 "Friendly greeting.";
           Suggestion.mk 8 3 "Expand on this."])
    None.

Definition helloDetails : SubmissionDetails.t :=
  SubmissionDetails.mk "submission-1" "Hello world" None None None None None.

(** Another submission, with one comment of its own. *)
Definition otherComment : InlineComment.t :=
  InlineComment.mk "65e1a0" 0 3 "Good." "bg-pink-200/70"
    "2024-02-20T09:00:00.000Z" "Ms. Rivera" (Some false) (Some "65e1a0").

Definition otherDetails : SubmissionDetails.t :=
  SubmissionDetails.mk "submission-2" "Bye" None None None
    (Some [otherComment]) None.

(** The request is sent on "Hello world"; the submission "Bye" is
    fetched before the answer arrives. *)
Definition afterRequest : Page.t :=
  fst (handleAnalyzeWithAI_request (Some "jwt") helloPage).

Definition afterReplacement : Page.t :=
  fetchSubmissionDetails_response (succeeded otherDetails)
    (fst (fetchSubmissionDetails_request (Some "jwt") afterRequest)).

Definition afterStaleAnswer : Page.t :=
  handleAnalyzeWithAI_response helloDetails freshAt (succeeded batch)
    afterReplacement.

(** Two comments on the same start, the one created later stored first,
    as a server may return them. *)
Definition createdLater : InlineComment.t :=
  InlineComment.mk "65e1b1" 0 5 "Second thought." "bg-blue-200/70"
    "2024-03-02T08:00:00.000Z" "Ms. Rivera" (Some false) (Some "65e1b1").

Definition createdEarlier : InlineComment.t :=
  InlineComment.mk "65e1b0" 0 5 "First thought." "bg-blue-200/70"
    "2024-03-01T08:00:00.000Z" "Ms. Rivera" (Some false) (Some "65e1b0").

(** The selection of "world" in the rendered "Hello world". *)
Definition worldSelection : DOM.Selection :=
  DOM.mkSelection 1 true 0 6 "world".

(** "The quick brown fox" with the comment on "quick brown" only, in
    comment mode; a selection of "brown fox", which begins inside the
    highlight and ends in the plain text behind it; and a selection of
    " fox", the space included. *)
Definition foxPageA : Page.t := toggleCommentMode (pageShowing fox [commentA]).

Definition brownFoxSelection : DOM.Selection :=
  DOM.mkSelection 1 true 1 6 "brown fox".

Definition spaceFoxSelection : DOM.Selection :=
  DOM.mkSelection 1 true 2 0 " fox".

(** The default rubric, as [fetchSubmissionDetails] sets it up. *)
Definition rubricPage : Page.t :=
  fetchSubmissionDetails_response (succeeded helloDetails) Page.initial.

(** A submission whose stored rubric has one item, with a negative
    [maxScore], and the page after it has been fetched. *)
Definition penaltyDetails : SubmissionDetails.t :=
  SubmissionDetails.mk "submission-3" "Hello world" (Some JS.zero)
    (Some [SubScore.mk (Some "65e1c0") "Penalty" JS.zero (JS.ofZ (-5)) ""])
    None None None.

Definition negativeMaxPage : Page.t :=
  fetchSubmissionDetails_response (succeeded penaltyDetails) Page.initial.

End Examples.


(* ===================================================================== *)
(** * Further handlers of the page *)
(* ===================================================================== *)

(** [updateSubScoreRationale]: a [map] with the position; an index that
    meets no position changes nothing. *)
Definition updateSubScoreRationale (index : Z) (rationale : string)
    (p : Page.t) : Page.t :=
  Page.setSubScores
    (mapi (fun i s =>
             if Z.of_nat i =? index
             then SubScore.mk (SubScore._id s) (SubScore.name s)
                    (SubScore.score s) (SubScore.maxScore s) rationale
             else s)
          0 (Page.subScores p)) p.

(** [keyof OverallFeedback] *)
Inductive FeedbackField : Type := strengths | improvements | actionItems.

(** [updateOverallFeedback]: [{ ...prev, [field]: value }] *)
Definition updateOverallFeedback (field : FeedbackField) (value : string)
    (p : Page.t) : Page.t :=
  let prev := Page.overallFeedback p in
  Page.setOverallFeedback
    (match field with
     | strengths =>
         OverallFeedback.mk value (OverallFeedback.improvements prev)
           (OverallFeedback.actionItems prev)
     | improvements =>
         OverallFeedback.mk (OverallFeedback.strengths prev) value
           (OverallFeedback.actionItems prev)
     | actionItems =>
         OverallFeedback.mk (OverallFeedback.strengths prev)
           (OverallFeedback.improvements prev) value
     end) p.

(** [scrollToComment]: the comment becomes the active one (and the sidebar
    scrolls to it). *)
Definition scrollToComment (commentId : string) (p : Page.t) : Page.t :=
  Page.setActiveCommentId (Some commentId) p.

(** The [onClick] of a comment card in the sidebar:
    [setActiveCommentId(comment.id === activeCommentId ? null : comment.id)] *)
Definition clickCommentCard (commentId : string) (p : Page.t) : Page.t :=
  Page.setActiveCommentId
    (if isActiveId (Page.activeCommentId p) commentId then None
     else Some commentId) p.

(** ** The name of the downloaded report *)

(** [s.replace(/\s+/g, '_')]: every maximal run of white space becomes one
    underscore.  [inRun] tells that the code unit in front was white
    space. *)
Fixpoint replaceRuns (inRun : bool) (s : string) : string :=
  match s with
  | EmptyString => EmptyString
  | String c s' =>
      if JS.isWhiteSpace c
      then if inRun then replaceRuns true s'
           else String "_"%char (replaceRuns true s')
      else String c (replaceRuns false s')
  end.

Definition replaceWhiteSpaceRuns (s : string) : string := replaceRuns false s.

(** [submissionDetails.assignmentId]: the id as a string, or the populated
    assignment, of which the [title] is read. *)
Inductive AssignmentRef : Type :=
| assignmentKey (id : string)
| assignmentObject (title : option string).

(** The [filename] that [handleDownloadReport] gives to the download, from
    the [studentName] and the [assignmentId] of the submission. *)
Definition reportFileName (studentName : option string)
    (assignmentId : AssignmentRef) : string :=
  let studentName :=
    orElse (match studentName with
            | Some n => replaceWhiteSpaceRuns n
            | None => ""
            end) "Student" in
  let assignmentTitleString :=
    match assignmentId with
    | assignmentObject (Some title) => replaceWhiteSpaceRuns title
    | assignmentObject None => ""
    | assignmentKey _ => "Assignment"
    end in
  "Report_" ++ studentName ++ "_" ++ orElse assignmentTitleString "Report"
  ++ ".pdf".

(** ** Initials *)

Definition space : ascii := " "%char.

(** [s.split(" ")]: the pieces between single spaces. *)
Fixpoint splitOnSpace (s : string) : list string :=
  match s with
  | EmptyString => [EmptyString]
  | String c s' =>
      if Ascii.eqb c space
      then EmptyString :: splitOnSpace s'
      else match splitOnSpace s' with
           | piece :: rest => String c piece :: rest
           | [] => [String c EmptyString]
           end
  end.

(** [n[0]]: the first code unit, [undefined] for the empty string. *)
Definition firstUnit (n : string) : option ascii :=
  match n with
  | String c _ => Some c
  | EmptyString => None
  end.

(** [name.split(" ").map(n => n[0]).filter(Boolean).join("")]: a one-unit
    string is truthy, so the filter drops the [undefined]s only. *)
Definition initialLetters (name : string) : string :=
  fold_right
    (fun piece acc =>
       match firstUnit piece with
       | Some c => String c acc
       | None => acc
       end)
    EmptyString (splitOnSpace name).

Section Initials.
(** [s.toUpperCase()] *)
Variable toUpperCase : string -> string.

(** [getInitials] *)
Definition getInitials (name : option string) : string :=
  match name with
  | None => "?"
  | Some n =>
      if negb (JS.truthy n) then "?"
      else toUpperCase (initialLetters n)
  end.
End Initials.

(* ===================================================================== *)
(** * Further notions used in the statements *)
(* ===================================================================== *)

(** A string without its line feeds. *)
Fixpoint stripNewlines (s : string) : string :=
  match s with
  | EmptyString => EmptyString
  | String c s' =>
      if Ascii.eqb c JS.newline then stripNewlines s'
      else String c (stripNewlines s')
  end.

(** What a segment contributes to the text of the view. *)
Definition shownText (segment : Segment.t) : string :=
  match segment with
  | Segment.text content => stripNewlines content
  | Segment.highlight content _ => content
  end.

(** The text of the content element after rendering. *)
Definition viewText (p : Page.t) : string :=
  DOM.textContent (textNodes (renderHighlightedContent p)).

(** A plain span holds a non-empty line without line feed. *)
Definition spanWellFormed (s : Span.t) : Prop :=
  match s with
  | Span.plain line => line <> EmptyString /\ stripNewlines line = line
  | Span.highlighted _ _ _ => True
  end.

Definition hasId (i : string) (c : InlineComment.t) : bool :=
  String.eqb (InlineComment.id c) i.

(** The string holds no white space. *)
Fixpoint noWhiteSpace (s : string) : bool :=
  match s with
  | EmptyString => true
  | String c s' => negb (JS.isWhiteSpace c) && noWhiteSpace s'
  end.

(** The code units of a name that begin a word: those that are no space
    and stand first or behind a space.  [afterSpace] tells that the code
    unit in front was a space, or that there was none. *)
Fixpoint wordStarts (afterSpace : bool) (name : string) : string :=
  match name with
  | EmptyString => EmptyString
  | String c s' =>
      if Ascii.eqb c space then wordStarts true s'
      else if afterSpace then String c (wordStarts false s')
           else wordStarts false s'
  end.

(** The pending selection is consistent: when a selection range is set,
    it starts at 0 or later, it is as long as the selected text, and the
    selected text is not empty. *)
Definition selectionWellFormed (p : Page.t) : Prop :=
  match Page.selectionRange p with
  | Some r =>
      0 <= SelectionRange.start r
      /\ SelectionRange.end_ r
         = SelectionRange.start r + Z.of_nat (String.length (Page.selectedText p))
      /\ Page.selectedText p <> EmptyString
  | None => True
  end.

(** ** The page as a transition system *)

(** What can happen to the page: the events of its controls, and the
    completions of its requests.  A completion carries the
    [submissionDetails] of the handler's closure. *)
Inductive Event : Type :=
| mouseUpInContent (selection : option DOM.Selection)
| commentTyped (text : string)
| addCommentClicked (fresh : Fresh.t) (userName : option string)
| deleteClicked (commentId : string)
| commentEdited (commentId newText : string)
| commentCardClicked (commentId : string)
| scrolledToComment (commentId : string)
| commentModeToggled
| sidebarRendered
| analysisRequested (token : option string)
| analysisCompleted (captured : SubmissionDetails.t) (fresh : nat -> Fresh.t)
    (response : Response AnalysisResult.t)
| fetchRequested (token : option string)
| fetchCompleted (response : Response SubmissionDetails.t)
| scoreEdited (index : Z) (newScore : ScoreInput)
| rationaleEdited (index : Z) (rationale : string)
| feedbackEdited (field : FeedbackField) (value : string).

Section Transitions.
Variable Number_ : string -> JS.number.

(** The state after an event.  The content element hands mouse-ups to
    [handleTextSelection] in comment mode only, and the selection is
    measured in the view rendered from the state; an update of a score
    that throws leaves the state as it was. *)
Definition step (e : Event) (p : Page.t) : Page.t :=
  match e with
  | mouseUpInContent selection =>
      if Page.isCommentMode p
      then handleTextSelection (textNodes (renderHighlightedContent p))
             selection p
      else p
  | commentTyped text => Page.setNewCommentText text p
  | addCommentClicked fresh userName => handleAddCommentClick fresh userName p
  | deleteClicked commentId => snd (removeInlineComment commentId p)
  | commentEdited commentId newText => updateCommentText commentId newText p
  | commentCardClicked commentId => clickCommentCard commentId p
  | scrolledToComment commentId => scrollToComment commentId p
  | commentModeToggled => toggleCommentMode p
  | sidebarRendered => snd (sidebarComments p)
  | analysisRequested token => fst (handleAnalyzeWithAI_request token p)
  | analysisCompleted captured fresh response =>
      handleAnalyzeWithAI_response captured fresh response p
  | fetchRequested token => fst (fetchSubmissionDetails_request token p)
  | fetchCompleted response => fetchSubmissionDetails_response response p
  | scoreEdited index newScore =>
      match updateSubScore Number_ index newScore p with
      | completed p' => p'
      | threw _ => p
      end
  | rationaleEdited index rationale => updateSubScoreRationale index rationale p
  | feedbackEdited field value => updateOverallFeedback field value p
  end.

(** The state after a sequence of events, the first event first. *)
Definition run (events : list Event) (p : Page.t) : Page.t :=
  fold_left (fun q e => step e q) events p.
End Transitions.

(** A span without its active flag. *)
Definition inactive (s : Span.t) : Span.t :=
  match s with
  | Span.plain line => Span.plain line
  | Span.highlighted content comment _ => Span.highlighted content comment false
  end.

Module LayoutNotions.

(** The text nodes the paragraphs make. *)
Definition nodesOf (ps : list (list Span.t)) : list string :=
  flat_map (fun para => filter JS.truthy (map Span.text para)) ps.

(** The text laid out so far: the finished paragraphs, then the current
    one. *)
Definition laidOut (acc : list (list Span.t) * list Span.t) : string :=
  String.append (DOM.textContent (nodesOf (fst acc)))
                (DOM.textContent (map Span.text (snd acc))).

(** A piece of a split text without the separator. *)
Definition lineOf (piece : string) : string :=
  if String.eqb piece (String JS.newline EmptyString) then EmptyString
  else piece.

Definition pieceWellFormed (piece : string) : Prop :=
  piece = String JS.newline EmptyString \/ stripNewlines piece = piece.

Definition accWellFormed (acc : list (list Span.t) * list Span.t) : Prop :=
  Forall (fun para => para <> []) (fst acc)
  /\ Forall (Forall spanWellFormed) (fst acc)
  /\ Forall spanWellFormed (snd acc).

(** The layout so far, every highlight taken as inactive. *)
Definition inactiveAcc (acc : list (list Span.t) * list Span.t)
    : list (list Span.t) * list Span.t :=
  (map (map inactive) (fst acc), map inactive (snd acc)).

(** [renderedParagraphs] once the last paragraph is pushed. *)
Definition finish (acc : list (list Span.t) * list Span.t)
    : list (list Span.t) :=
  if nonEmpty (snd acc) then (fst acc ++ [snd acc])%list else fst acc.

End LayoutNotions.

Module MoreExamples.

Local Open Scope string_scope.

(** Two lines, without comments. *)
Definition twoLines : string :=
  "Hello" ++ String JS.newline "world".

Definition twoLinesPage : Page.t := pageShowing twoLines [].

End MoreExamples.


(** A comment as the analysis adds it. *)
Definition addedByAnalysis (c : InlineComment.t) : Prop :=
  InlineComment.isAIGenerated c = Some true
  /\ InlineComment.author c = "AI Assistant"
  /\ InlineComment._id c = None.

(** [{ ...c, text: newText }] on the comments with the id [i]. *)
Definition editText (i newText : string) (c : InlineComment.t)
    : InlineComment.t :=
  if String.eqb (InlineComment.id c) i then InlineComment.withText c newText
  else c.

(** The value of one field of the overall feedback. *)
Definition fieldOf (field : FeedbackField) (f : OverallFeedback.t) : string :=
  match field with
  | strengths => OverallFeedback.strengths f
  | improvements => OverallFeedback.improvements f
  | actionItems => OverallFeedback.actionItems f
  end.

(** The token read from local storage is there and not empty. *)
Definition tokenPresent (token : option string) : bool :=
  match token with
  | Some tk => JS.truthy tk
  | None => false
  end.

(** A load of a submission that succeeds: the request, then its answer. *)
Definition load (token : option string) (data : SubmissionDetails.t)
    (p : Page.t) : Page.t :=
  fetchSubmissionDetails_response (succeeded data)
    (fst (fetchSubmissionDetails_request token p)).

(** [c'] is the comment [c] of a fetched submission as the page stores
    it: the same comment, under its database id when it has one. *)
Definition loadedFrom (c c' : InlineComment.t) : Prop :=
  InlineComment.startIndex c' = InlineComment.startIndex c
  /\ InlineComment.endIndex c' = InlineComment.endIndex c
  /\ InlineComment.text c' = InlineComment.text c
  /\ InlineComment.author c' = InlineComment.author c
  /\ InlineComment.timestamp c' = InlineComment.timestamp c
  /\ InlineComment._id c' = InlineComment._id c
  /\ (forall d, InlineComment._id c = Some d -> JS.truthy d = true ->
                InlineComment.id c' = d)
  /\ (InlineComment._id c = None -> InlineComment.id c' = InlineComment.id c).

(** Two rubric items with the same score and the same maximum. *)
Definition sameMarks (s s' : SubScore.t) : Prop :=
  SubScore.score s' = SubScore.score s
  /\ SubScore.maxScore s' = SubScore.maxScore s.

(** [{ ...s, rationale }] *)
Definition withRationale (s : SubScore.t) (rationale : string) : SubScore.t :=
  SubScore.mk (SubScore._id s) (SubScore.name s) (SubScore.score s)
    (SubScore.maxScore s) rationale.

Module MoreExamples2.

Local Open Scope string_scope.

(** [toUpperCase] on a string of the letters a to z, digits and spaces. *)
Fixpoint upperAscii (s : string) : string :=
  match s with
  | EmptyString => EmptyString
  | String c s' =>
      let n := nat_of_ascii c in
      String (if ((97 <=? n) && (n <=? 122))%nat
              then ascii_of_nat (n - 32) else c)
             (upperAscii s')
  end.

(** A session: the teacher enters comment mode, selects "world" in
    "Hello world", types a comment and clicks "Add Comment". *)
Definition session : list Event :=
  [ fetchRequested (Some "jwt");
    fetchCompleted (succeeded Examples.helloDetails);
    commentModeToggled;
    mouseUpInContent (Some Examples.worldSelection);
    commentTyped "Which world?" ].

End MoreExamples2.

(** What is rendered, every highlight taken as inactive. *)
Definition withoutActive (r : Rendered) : Rendered :=
  match r with
  | placeholder message => placeholder message
  | paragraphs ps => paragraphs (map (map inactive) ps)
  end.

(** The comments start at pairwise different offsets. *)
Definition distinctStarts (l : list InlineComment.t) : Prop :=
  NoDup (map InlineComment.startIndex l).

(* ===================================================================== *)
(** * Strings and sorting *)
(* ===================================================================== *)

Module JSFacts.

Lemma take_drop (n : nat) (s : string) :
  String.append (JS.take n s) (JS.drop n s) = s.
Proof.
  revert n; induction s as [|c s IH]; intros [|n]; simpl; auto.
  now rewrite IH.
Qed.

Lemma take_all (s : string) (n : nat) :
  (String.length s <= n)%nat -> JS.take n s = s.
Proof.
  revert n; induction s as [|c s IH]; intros [|n] H; simpl in *; auto; try lia.
  rewrite IH; auto; lia.
Qed.

Lemma drop_all (s : string) (n : nat) :
  (String.length s <= n)%nat -> JS.drop n s = EmptyString.
Proof.
  revert n; induction s as [|c s IH]; intros [|n] H; simpl in *; auto; try lia.
  apply IH; lia.
Qed.

Lemma length_take (n : nat) (s : string) :
  String.length (JS.take n s) = Nat.min n (String.length s).
Proof.
  revert n; induction s as [|c s IH]; intros [|n]; simpl; auto.
Qed.

Lemma drop_drop (a b : nat) (s : string) :
  JS.drop b (JS.drop a s) = JS.drop (a + b) s.
Proof.
  revert a; induction s as [|c s IH]; intros [|a]; simpl; auto;
    destruct b; reflexivity.
Qed.

Lemma length_drop (n : nat) (s : string) :
  String.length (JS.drop n s) = (String.length s - n)%nat.
Proof.
  revert n; induction s as [|c s IH]; intros [|n]; simpl; auto.
Qed.

Lemma length_slice (s : string) (a b : nat) :
  (a <= b)%nat -> (b <= String.length s)%nat ->
  String.length (JS.slice s a b) = (b - a)%nat.
Proof.
  intros Hab Hb. unfold JS.slice. rewrite length_take, length_drop. lia.
Qed.

(** Two adjacent pieces make one piece. *)
Lemma take_take_drop (n m : nat) (s : string) :
  String.append (JS.take n s) (JS.take m (JS.drop n s)) = JS.take (n + m) s.
Proof.
  revert n; induction s as [|c s IH]; intros [|n]; simpl; auto;
    try (destruct m; reflexivity).
  now rewrite IH.
Qed.

Lemma slice_slice (s : string) (a b c : nat) :
  (a <= b)%nat -> (b <= c)%nat ->
  String.append (JS.slice s a b) (JS.slice s b c) = JS.slice s a c.
Proof.
  intros Hab Hbc. unfold JS.slice.
  replace b with (a + (b - a))%nat at 3 by lia.
  rewrite <- drop_drop, take_take_drop. f_equal. lia.
Qed.

Lemma slice_empty (s : string) (a : nat) : JS.slice s a a = EmptyString.
Proof. unfold JS.slice. rewrite Nat.sub_diag. now destruct (JS.drop a s). Qed.

Lemma slice_whole (s : string) : JS.slice s 0 (String.length s) = s.
Proof. unfold JS.slice. simpl. apply take_all. lia. Qed.

(** [substring] on arguments in order and inside the string. *)
Lemma substring_slice (s : string) (a b : Z) :
  0 <= a -> a <= b -> b <= Z.of_nat (String.length s) ->
  JS.substring s a b = JS.slice s (Z.to_nat a) (Z.to_nat b).
Proof.
  intros Ha Hab Hb. unfold JS.substring, JS.clampIndex.
  rewrite !Z.max_l, !Z.min_l by lia.
  rewrite Nat.min_l, Nat.max_r by lia. reflexivity.
Qed.

Lemma substringFrom_slice (s : string) (a : Z) :
  0 <= a -> a <= Z.of_nat (String.length s) ->
  JS.substringFrom s a = JS.slice s (Z.to_nat a) (String.length s).
Proof.
  intros Ha Hb. unfold JS.substringFrom.
  rewrite substring_slice by lia. now rewrite Nat2Z.id.
Qed.

Lemma string_app_assoc (a b c : string) :
  String.append (String.append a b) c = String.append a (String.append b c).
Proof. induction a as [|x a IH]; simpl; auto. now rewrite IH. Qed.

Lemma string_app_empty (a : string) : String.append a EmptyString = a.
Proof. induction a as [|x a IH]; simpl; auto. now rewrite IH. Qed.

Lemma length_app (a b : string) :
  String.length (String.append a b) = (String.length a + String.length b)%nat.
Proof. induction a as [|x a IH]; simpl; auto. Qed.

Lemma textContent_app (l1 l2 : list string) :
  DOM.textContent (l1 ++ l2)
  = String.append (DOM.textContent l1) (DOM.textContent l2).
Proof.
  induction l1 as [|x l1 IH]; simpl; auto.
  now rewrite IH, string_app_assoc.
Qed.

Section SortFacts.
Context {A : Type}.
Variable key : A -> Z.
Local Abbreviation byKey := (fun a b : A => key a - key b).

Lemma insert_perm (x : A) (l : list A) :
  Permutation (x :: l) (JS.insert byKey x l).
Proof.
  induction l as [|y l IH]; simpl; auto.
  destruct (key x - key y >? 0); auto.
  rewrite perm_swap. now constructor.
Qed.

Lemma sort_perm (l : list A) : Permutation l (JS.sort byKey l).
Proof.
  induction l as [|x l IH]; simpl; auto.
  rewrite <- insert_perm. now constructor.
Qed.

Lemma insert_sorted (x : A) (l : list A) :
  StronglySorted (fun a b => key a <= key b) l ->
  StronglySorted (fun a b => key a <= key b) (JS.insert byKey x l).
Proof.
  induction 1 as [|y l Hl IH Hy]; simpl.
  - repeat constructor.
  - destruct (key x - key y >? 0) eqn:E.
    + constructor; auto.
      rewrite <- insert_perm. constructor; auto. lia.
    + constructor; [constructor; auto|].
      constructor; [lia|].
      eapply Forall_impl; [|exact Hy]. simpl. intros; lia.
Qed.

Lemma sort_sorted (l : list A) :
  StronglySorted (fun a b => key a <= key b) (JS.sort byKey l).
Proof.
  induction l as [|x l IH]; simpl; [constructor|].
  now apply insert_sorted.
Qed.

(** An element goes in front of the elements of its own key. *)
Lemma insert_filter_same (x : A) (l : list A) :
  filter (fun a => key a =? key x) (JS.insert byKey x l)
  = x :: filter (fun a => key a =? key x) l.
Proof.
  induction l as [|y l IH]; simpl.
  - now rewrite Z.eqb_refl.
  - destruct (key x - key y >? 0) eqn:E; simpl.
    + destruct (key y =? key x) eqn:E'; [lia|]. exact IH.
    + now rewrite Z.eqb_refl.
Qed.

Lemma insert_filter_other (k : Z) (x : A) (l : list A) :
  key x <> k ->
  filter (fun a => key a =? k) (JS.insert byKey x l)
  = filter (fun a => key a =? k) l.
Proof.
  intros Hk. induction l as [|y l IH]; simpl.
  - destruct (key x =? k) eqn:E; [lia|reflexivity].
  - destruct (key x - key y >? 0); simpl.
    + now rewrite IH.
    + destruct (key x =? k) eqn:E; [lia|reflexivity].
Qed.

(** Stability: the elements of one key keep their order. *)
Lemma sort_stable (k : Z) (l : list A) :
  filter (fun a => key a =? k) (JS.sort byKey l)
  = filter (fun a => key a =? k) l.
Proof.
  induction l as [|x l IH]; simpl; auto.
  destruct (Z.eq_dec (key x) k) as [<-|Hne].
  - rewrite insert_filter_same, Z.eqb_refl. now rewrite IH.
  - rewrite insert_filter_other by auto.
    destruct (key x =? k) eqn:E; [lia|]. exact IH.
Qed.

(** The order of the result depends on nothing but the keys: a change
    of the elements that keeps the keys commutes with the sort. *)
Lemma sort_map (f : A -> A) (l : list A) :
  (forall a, key (f a) = key a) ->
  JS.sort byKey (map f l) = map f (JS.sort byKey l).
Proof.
  intros Hf.
  assert (Hins : forall x l', JS.insert byKey (f x) (map f l')
                              = map f (JS.insert byKey x l')).
  { intros x l'. induction l' as [|y l' IH]; simpl; auto.
    rewrite !Hf.
    destruct (key x - key y >? 0); simpl; auto. now rewrite IH. }
  induction l as [|x l IH]; simpl; auto.
  now rewrite IH, Hins.
Qed.
End SortFacts.

End JSFacts.

(* ===================================================================== *)
(** * The renderer *)
(* ===================================================================== *)

Module RendererFacts.

Lemma segmentsText_snoc (segs : list Segment.t) (s : Segment.t) :
  segmentsText (segs ++ [s])
  = String.append (segmentsText segs) (Segment.content s).
Proof.
  unfold segmentsText. rewrite map_app, JSFacts.textContent_app. simpl.
  now rewrite JSFacts.string_app_empty.
Qed.

Section Walk.
Variable content : string.
Local Abbreviation len := (Z.of_nat (String.length content)).

(** One step of the walk extends the text covered so far up to the end
    of the comment. *)
Lemma pushComment_covers (segs : list Segment.t) (last : Z)
    (c : InlineComment.t) :
  0 <= last ->
  last <= InlineComment.startIndex c ->
  InlineComment.startIndex c <= InlineComment.endIndex c ->
  InlineComment.endIndex c <= len ->
  segmentsText segs = JS.slice content 0 (Z.to_nat last) ->
  snd (pushComment content (segs, last) c) = InlineComment.endIndex c
  /\ segmentsText (fst (pushComment content (segs, last) c))
     = JS.slice content 0 (Z.to_nat (InlineComment.endIndex c)).
Proof.
  intros H0 H1 H2 H3 Hsegs. unfold pushComment.
  split; [reflexivity|]. cbn [fst].
  destruct (InlineComment.startIndex c >? last) eqn:E.
  - rewrite !segmentsText_snoc. cbn [Segment.content].
    rewrite Hsegs, !JSFacts.substring_slice by lia.
    rewrite !JSFacts.slice_slice by lia. reflexivity.
  - assert (InlineComment.startIndex c = last) as Heq by lia.
    rewrite segmentsText_snoc. cbn [Segment.content].
    rewrite Hsegs, JSFacts.substring_slice by lia.
    rewrite Heq, JSFacts.slice_slice by lia. reflexivity.
Qed.

Lemma walk_covers (l : list InlineComment.t) :
  forall (segs : list Segment.t) (last : Z),
    0 <= last -> last <= len ->
    RendererNotions.chained len last l ->
    segmentsText segs = JS.slice content 0 (Z.to_nat last) ->
    let r := fold_left (pushComment content) l (segs, last) in
    0 <= snd r /\ snd r <= len
    /\ segmentsText (fst r) = JS.slice content 0 (Z.to_nat (snd r)).
Proof.
  induction l as [|c l IH]; intros segs last H0 Hlen Hch Hsegs;
    cbn [fold_left].
  - simpl. auto.
  - destruct Hch as (Ha & Hb & Hc & Hch).
    destruct (pushComment_covers segs last c H0 Ha Hb Hc Hsegs) as [Hl Ht].
    destruct (pushComment content (segs, last) c) as [segs' last'] eqn:E.
    simpl in Hl, Ht. subst last'.
    apply IH; auto; lia.
Qed.
End Walk.

Lemma noOverlap_perm (l l' : list InlineComment.t) :
  Permutation l l' -> noOverlap l -> noOverlap l'.
Proof.
  unfold noOverlap. induction 1 as [|x l l' Hp IH|x y l|l l' l'' _ IH1 _ IH2];
    intros H; auto.
  - inversion H; subst. constructor; auto.
    eapply Permutation_Forall; eauto.
  - inversion H as [|? ? Hy Hr]; subst. inversion Hr as [|? ? Hx Hl]; subst.
    inversion Hy as [|? ? Hyx Hyl]; subst.
    constructor; [constructor; auto|constructor; auto].
    unfold apart in *. lia.
Qed.

(** Sorted by start, valid and free of overlap: the walk is a chain. *)
Lemma sorted_chained (content : string) (l : list InlineComment.t) :
  forall last,
    StronglySorted startsBefore l ->
    Forall (validRange content) l ->
    noOverlap l ->
    Forall (fun c => last <= InlineComment.startIndex c) l ->
    RendererNotions.chained (Z.of_nat (String.length content)) last l.
Proof.
  induction l as [|c l IH]; intros last Hs Hv Ho Hl; simpl; auto.
  inversion Hs as [|? ? Hs' Hc]; subst.
  inversion Hv as [|? ? Hvc Hv']; subst.
  inversion Ho as [|? ? Hoc Ho']; subst.
  inversion Hl as [|? ? Hlc Hl']; subst.
  destruct Hvc as (V0 & V1 & V2).
  repeat split; try lia.
  apply IH; auto.
  rewrite Forall_forall in *. intros d Hd.
  specialize (Hc d Hd). specialize (Hoc d Hd). specialize (Hv' d Hd).
  unfold startsBefore, apart, validRange in *. lia.
Qed.

Lemma sort_startsBefore (l : list InlineComment.t) :
  StronglySorted startsBefore (JS.sort compareByStart l).
Proof. exact (JSFacts.sort_sorted InlineComment.startIndex l). Qed.

Lemma sort_permutation (l : list InlineComment.t) :
  Permutation l (JS.sort compareByStart l).
Proof. exact (JSFacts.sort_perm InlineComment.startIndex l). Qed.

Lemma insert_startThenCreated (x : InlineComment.t) (l : list InlineComment.t) :
  StronglySorted startThenCreated l ->
  Forall (tieInCreationOrder x) l ->
  StronglySorted startThenCreated (JS.insert compareByStart x l).
Proof.
  induction 1 as [|y l Hl IH Hy]; intros Hx; simpl.
  - repeat constructor.
  - inversion Hx as [|? ? Hxy Hxl]; subst.
    unfold compareByStart at 1.
    destruct (InlineComment.startIndex x - InlineComment.startIndex y >? 0) eqn:E.
    + constructor; auto.
      eapply Permutation_Forall;
        [exact (JSFacts.insert_perm InlineComment.startIndex x l)|].
      constructor; [left; lia|exact Hy].
    + constructor; [constructor; auto|].
      assert (Hle : forall z, startThenCreated y z ->
                InlineComment.startIndex y <= InlineComment.startIndex z).
      { intros z [H|[H _]]; lia. }
      rewrite Forall_forall in Hy, Hxl.
      constructor.
      * destruct (Z.eq_dec (InlineComment.startIndex x)
                           (InlineComment.startIndex y)) as [Heq|Hne].
        -- right. split; auto.
        -- left. lia.
      * apply Forall_forall. intros z Hz.
        pose proof (Hle z (Hy z Hz)) as Hyz.
        destruct (Z.eq_dec (InlineComment.startIndex x)
                           (InlineComment.startIndex z)) as [Heq|Hne].
        -- right. split; auto. apply Hxl; auto.
        -- left. lia.
Qed.

(** When the store holds the comments of one start in the order of
    their creation, the sorted sequence is ordered by start and then by
    creation time. *)
Lemma sort_startThenCreated (l : list InlineComment.t) :
  ForallOrdPairs tieInCreationOrder l ->
  StronglySorted startThenCreated (JS.sort compareByStart l).
Proof.
  induction 1 as [|x l Hx Hl IH]; simpl; [constructor|].
  apply insert_startThenCreated; auto.
  eapply Permutation_Forall; [apply sort_permutation|exact Hx].
Qed.

(** The walk emits one highlight per comment, in the order of the walk. *)
Lemma walk_highlights (content : string) (l : list InlineComment.t) :
  forall (segs : list Segment.t) (last : Z),
    highlightComments (fst (fold_left (pushComment content) l (segs, last)))
    = (highlightComments segs ++ l)%list.
Proof.
  induction l as [|c l IH]; intros segs last; cbn [fold_left].
  - simpl. now rewrite app_nil_r.
  - unfold pushComment at 2.
    destruct (InlineComment.startIndex c >? last); rewrite IH;
      unfold highlightComments; rewrite !flat_map_app; simpl;
      rewrite ?app_nil_r, <- ?app_assoc; reflexivity.
Qed.

Lemma buildSegments_highlights (content : string) (l : list InlineComment.t) :
  highlightComments (buildSegments content l) = JS.sort compareByStart l.
Proof.
  unfold buildSegments.
  pose proof (walk_highlights content (JS.sort compareByStart l) [] 0) as H.
  destruct (fold_left _ _ _) as [segs last]. simpl in H.
  destruct (last <? _); auto.
  unfold highlightComments in *. rewrite flat_map_app. simpl.
  now rewrite app_nil_r.
Qed.

End RendererFacts.

(** Round trip of the renderer on comments that do not overlap: when every
    comment delimits a non-empty part of the text and no two comments share
    a position, the [content] strings of the segments, put together in
    order, are the text. *)
Theorem buildSegments_roundtrip (content : string)
    (comments : list InlineComment.t) :
  Forall (validRange content) comments ->
  noOverlap comments ->
  segmentsText (buildSegments content comments) = content.
Proof.
  intros Hv Ho. unfold buildSegments.
  pose proof (RendererFacts.sort_permutation comments) as Hp.
  pose proof (RendererFacts.sorted_chained content
                (JS.sort compareByStart comments) 0
                (RendererFacts.sort_startsBefore comments)
                (Permutation_Forall Hp Hv)
                (RendererFacts.noOverlap_perm _ _ Hp Ho)) as Hch.
  assert (Hlow : Forall (fun c => 0 <= InlineComment.startIndex c)
                        (JS.sort compareByStart comments)).
  { eapply Permutation_Forall; [exact Hp|].
    eapply Forall_impl; [|exact Hv]. intros c (H & _). exact H. }
  specialize (Hch Hlow).
  pose proof (RendererFacts.walk_covers content
                (JS.sort compareByStart comments) [] 0
                (Z.le_refl 0) (Nat2Z.is_nonneg _) Hch eq_refl) as Hw.
  destruct (fold_left _ _ _) as [segs last]. simpl in Hw.
  destruct Hw as (H0 & H1 & Ht).
  destruct (last <? Z.of_nat (String.length content)) eqn:E.
  - rewrite RendererFacts.segmentsText_snoc. cbn [Segment.content].
    rewrite Ht, JSFacts.substringFrom_slice by lia.
    rewrite JSFacts.slice_slice by lia. apply JSFacts.slice_whole.
  - assert (last = Z.of_nat (String.length content)) as -> by lia.
    rewrite Ht, Nat2Z.id. apply JSFacts.slice_whole.
Qed.

(** The same on a page: whatever the page, if its comments are valid for
    its text and do not overlap, the segments of the renderer spell the
    text; a page without text yields no segment. *)
Theorem renderedSegments_roundtrip (p : Page.t) :
  Forall (validRange (Page.content p)) (Page.inlineComments p) ->
  noOverlap (Page.inlineComments p) ->
  segmentsText (renderedSegments p) = Page.content p.
Proof.
  intros Hv Ho. unfold renderedSegments.
  destruct (Page.content p) as [|c s] eqn:E; simpl.
  - reflexivity.
  - now apply buildSegments_roundtrip.
Qed.

Lemma renderedSegments_roundtrip_witness :
  segmentsText (renderedSegments (pageShowing Examples.fox [Examples.commentA]))
  = Examples.fox.
Proof.
  apply renderedSegments_roundtrip.
  - repeat constructor; simpl; lia.
  - repeat constructor.
Defined.

(** Two valid comments that overlap make the rendered text longer than
    the text: the part from the start of the second comment to the end of
    the first is emitted twice. *)
Theorem overlap_lengthens_text (content : string) (a b : InlineComment.t) :
  validRange content a ->
  validRange content b ->
  InlineComment.startIndex a <= InlineComment.startIndex b ->
  InlineComment.startIndex b < InlineComment.endIndex a ->
  Z.of_nat (String.length (segmentsText (buildSegments content [a; b])))
  = Z.of_nat (String.length content)
    + (InlineComment.endIndex a - InlineComment.startIndex b).
Proof.
  intros (A0 & A1 & A2) (B0 & B1 & B2) Hab Hov.
  unfold buildSegments. simpl JS.sort. unfold compareByStart at 1.
  destruct (InlineComment.startIndex b - InlineComment.startIndex a >? 0) eqn:E1;
    unfold JS.insert;
    [|assert (InlineComment.startIndex a = InlineComment.startIndex b) as Heq by lia];
    cbn [fold_left pushComment];
    replace (InlineComment.startIndex b >? InlineComment.endIndex a) with false by lia.
  all: try (unfold compareByStart;
            replace (InlineComment.startIndex a - InlineComment.startIndex b >? 0)
              with false by lia;
            cbn [fold_left pushComment];
            replace (InlineComment.startIndex b >? InlineComment.endIndex a)
              with false by lia).
  all: destruct (InlineComment.startIndex a >? 0) eqn:E2;
    destruct (InlineComment.endIndex b <? Z.of_nat (String.length content)) eqn:E3;
    unfold segmentsText; simpl map; cbn [DOM.textContent fold_right];
    rewrite ?JSFacts.length_app; simpl String.length;
    rewrite ?JSFacts.substringFrom_slice, ?JSFacts.substring_slice by lia;
    rewrite ?JSFacts.length_slice by lia; lia.
Qed.

Lemma overlap_lengthens_text_witness :
  Z.of_nat (String.length
    (segmentsText (buildSegments Examples.fox [Examples.commentA; Examples.commentB])))
  = 19 + (15 - 10).
Proof.
  apply (overlap_lengthens_text Examples.fox Examples.commentA Examples.commentB);
    unfold validRange; simpl; lia.
Defined.

(** C1.  The round trip fails on overlapping comments.  On "The quick
    brown fox" with a comment on [4, 15) and one on [10, 19), both valid
    ranges of the text, the [content] strings of the segments spell
    "The quick brownbrown fox": the second highlight repeats the five
    code units the first one has already covered, because the walk
    neither cuts a highlight at [lastIndex] nor keeps [lastIndex] from
    falling back. *)
Theorem roundtrip_fails_on_overlap :
  Forall (validRange Examples.fox) (Page.inlineComments Examples.foxPage)
  /\ segmentsText (renderedSegments Examples.foxPage) = "The quick brownbrown fox"%string
  /\ segmentsText (renderedSegments Examples.foxPage) <> Page.content Examples.foxPage.
Proof.
  split; [|split].
  - repeat constructor; simpl; lia.
  - reflexivity.
  - discriminate.
Qed.

(** C2.  The highlight of a later comment that starts before [lastIndex]
    is not clipped.  On "The quick brown fox" with A on [4, 15) created
    first and B on [10, 19) created later, the segments are the text
    "The ", the highlight of A "quick brown", and the highlight of B
    "brown fox", the whole of B's range and not only " fox". *)
Theorem overlapping_highlight_not_clipped :
  renderedSegments Examples.foxPage
  = [ Segment.text "The ";
      Segment.highlight "quick brown" Examples.commentA;
      Segment.highlight "brown fox" Examples.commentB ]
  /\ textNodes (renderHighlightedContent Examples.foxPage)
     = [ "The "; "quick brown"; "brown fox" ]%string.
Proof. split; reflexivity. Qed.

(* ===================================================================== *)
(** * The comment store *)
(* ===================================================================== *)

Module StoreFacts.

Lemma length_mapi {A B : Type} (f : nat -> A -> B) (l : list A) :
  forall i, List.length (mapi f i l) = List.length l.
Proof. induction l as [|x l IH]; intros i; simpl; auto. Qed.

Lemma offsets_suggested (fresh : nat -> Fresh.t) (l : list Suggestion.t) :
  forall i,
    offsetsOf (mapi (suggestedComment fresh) i l)
    = map (fun s => (Suggestion.startIndex s, Suggestion.endIndex s)) l.
Proof.
  induction l as [|s l IH]; intros i; simpl; auto.
  now rewrite IH.
Qed.

(** A successful answer appends one comment per suggestion to the store
    it finds, and does nothing else to the store. *)
Lemma response_store (captured : SubmissionDetails.t) (fresh : nat -> Fresh.t)
    (r : AnalysisResult.t) (p : Page.t) :
  Page.inlineComments
    (handleAnalyzeWithAI_response captured fresh (succeeded r) p)
  = (Page.inlineComments p
     ++ mapi (suggestedComment fresh) 0 (suggestionsOf r))%list.
Proof.
  unfold handleAnalyzeWithAI_response, suggestionsOf.
  destruct (AnalysisResult.suggestedOverallFeedback r);
    destruct (AnalysisResult.suggestedInlineComments r) as [[|s l]|];
    destruct (AnalysisResult.aiCheckResults r);
    destruct (SubmissionDetails.aiCheckerResults captured);
    simpl; rewrite ?app_nil_r; reflexivity.
Qed.

Lemma fetch_response_store (data : SubmissionDetails.t) (p : Page.t) :
  Page.inlineComments (fetchSubmissionDetails_response (succeeded data) p)
  = loadedComments data
  /\ Page.content (fetchSubmissionDetails_response (succeeded data) p)
     = SubmissionDetails.content data.
Proof.
  unfold fetchSubmissionDetails_response, loadedComments.
  destruct (SubmissionDetails.overallFeedback data) as [f|];
    [destruct (hasFeedback f)|];
    destruct (SubmissionDetails.subScores data) as [[|s l]|];
    split; reflexivity.
Qed.

Lemma filter_keeps_all {A : Type} (f : A -> bool) (l : list A) :
  (forall x, In x l -> f x = true) -> filter f l = l.
Proof.
  induction l as [|x l IH]; intros H; simpl; auto.
  rewrite (H x (or_introl eq_refl)). f_equal. apply IH.
  intros y Hy. apply H. now right.
Qed.

End StoreFacts.




(** C5, as the code has it.  The bulk path checks no item.  A successful
    analysis answer appends one comment per suggested item, in the order
    of the batch and with the offsets the item came with, valid or not;
    nothing is dropped, and the handler ends normally, with the
    "AI Analysis Complete" toast as its last notification. *)
Theorem bulk_add_keeps_every_item (captured : SubmissionDetails.t)
    (fresh : nat -> Fresh.t) (r : AnalysisResult.t) (p : Page.t) :
  let p' := handleAnalyzeWithAI_response captured fresh (succeeded r) p in
  List.length (Page.inlineComments p')
  = (List.length (Page.inlineComments p) + List.length (suggestionsOf r))%nat
  /\ offsetsOf (Page.inlineComments p')
     = (offsetsOf (Page.inlineComments p)
        ++ map (fun s => (Suggestion.startIndex s, Suggestion.endIndex s))
               (suggestionsOf r))%list
  /\ Page.error p' = Page.error p
  /\ Page.toasts p'
     = (Page.toasts p
        ++ [Toast.mk "AI Analysis Complete" "Suggestions added." Toast.normal])%list.
Proof.
  intros p'. subst p'. rewrite StoreFacts.response_store.
  split; [|split; [|split]].
  - now rewrite length_app, StoreFacts.length_mapi.
  - unfold offsetsOf at 1. rewrite map_app.
    fold (offsetsOf (Page.inlineComments p)).
    fold (offsetsOf (mapi (suggestedComment fresh) 0 (suggestionsOf r))).
    now rewrite StoreFacts.offsets_suggested.
  - unfold handleAnalyzeWithAI_response.
    destruct (AnalysisResult.suggestedOverallFeedback r);
      destruct (AnalysisResult.suggestedInlineComments r) as [[|s l]|];
      destruct (AnalysisResult.aiCheckResults r);
      destruct (SubmissionDetails.aiCheckerResults captured);
      reflexivity.
  - unfold handleAnalyzeWithAI_response.
    destruct (AnalysisResult.suggestedOverallFeedback r);
      destruct (AnalysisResult.suggestedInlineComments r) as [[|s l]|];
      destruct (AnalysisResult.aiCheckResults r);
      destruct (SubmissionDetails.aiCheckerResults captured);
      reflexivity.
Qed.

(** C5, as stated, fails: on "Hello world" the batch of [{0,5}] and
    [{8,3}] adds two comments, not one; the comment with the range
    [8, 3) is in the store afterwards. *)
Lemma bulk_add_keeps_invalid_item :
  ~ (List.length (Page.inlineComments
        (handleAnalyzeWithAI_response Examples.helloDetails Examples.freshAt
           (succeeded Examples.batch) Examples.helloPage))
     = (List.length (Page.inlineComments Examples.helloPage) + 1)%nat)
  /\ offsetsOf (Page.inlineComments
        (handleAnalyzeWithAI_response Examples.helloDetails Examples.freshAt
           (succeeded Examples.batch) Examples.helloPage))
     = [(0, 5); (8, 3)].
Proof. split; [discriminate|reflexivity]. Qed.

(** C4, as the code has it.  An analysis answer that arrives after the
    submission has been replaced is applied all the same.  The handler
    keeps the submission it was started on in its closure, but compares
    it with nothing: when the request was sent on one text, another
    submission was fetched meanwhile, and the answer then arrives, the
    store holds the comments of the new submission followed by one comment
    per suggestion made for the old text. *)
Theorem stale_analysis_is_applied (token token' : option string)
    (p0 p1 : Page.t) (captured data : SubmissionDetails.t)
    (fresh : nat -> Fresh.t) (r : AnalysisResult.t)
    (Hsent : handleAnalyzeWithAI_request token p0 = (p1, Some captured)) :
  let p2 := fetchSubmissionDetails_response (succeeded data)
              (fst (fetchSubmissionDetails_request token' p1)) in
  let p3 := handleAnalyzeWithAI_response captured fresh (succeeded r) p2 in
  SubmissionDetails.content captured = Page.content p0
  /\ Page.content p2 = SubmissionDetails.content data
  /\ Page.inlineComments p2 = loadedComments data
  /\ Page.inlineComments p3
     = (loadedComments data
        ++ mapi (suggestedComment fresh) 0 (suggestionsOf r))%list.
Proof.
  intros p2 p3. subst p3.
  destruct (StoreFacts.fetch_response_store data
              (fst (fetchSubmissionDetails_request token' p1))) as [Hst Hct].
  fold p2 in Hst, Hct.
  split; [|split; [|split]]; auto.
  - unfold handleAnalyzeWithAI_request in Hsent. unfold Page.content.
    destruct (Page.submissionDetails p0) as [d|]; [|discriminate].
    destruct (negb (JS.truthy (SubmissionDetails.content d))); [discriminate|].
    destruct token as [tk|]; [destruct (JS.truthy tk)|];
      inversion Hsent; reflexivity.
  - now rewrite StoreFacts.response_store, Hst.
Qed.

Lemma stale_analysis_is_applied_witness :
  handleAnalyzeWithAI_request (Some "jwt"%string) Examples.helloPage
  = (Page.setError None (Page.setIsAnalyzing true Examples.helloPage),
     Some Examples.helloDetails)
  /\ offsetsOf (Page.inlineComments
       (handleAnalyzeWithAI_response Examples.helloDetails Examples.freshAt
          (succeeded Examples.batch)
          (fetchSubmissionDetails_response (succeeded Examples.otherDetails)
             (fst (fetchSubmissionDetails_request (Some "jwt"%string)
                (Page.setError None (Page.setIsAnalyzing true Examples.helloPage)))))))
     = [(0, 3); (0, 5); (8, 3)].
Proof.
  split; [reflexivity|].
  destruct (stale_analysis_is_applied (Some "jwt"%string) (Some "jwt"%string)
              Examples.helloPage
              (Page.setError None (Page.setIsAnalyzing true Examples.helloPage))
              Examples.helloDetails Examples.otherDetails Examples.freshAt
              Examples.batch eq_refl) as (_ & _ & _ & H).
  rewrite H. reflexivity.
Defined.

(** C4, as stated, fails: a request is sent on "Hello world", the
    submission "Bye" with its one comment is fetched, then the answer for
    "Hello world" arrives; the store, which held the one comment of "Bye",
    holds three comments afterwards, two of them with offsets into
    "Hello world". *)
Lemma stale_analysis_changes_store :
  snd (handleAnalyzeWithAI_request (Some "jwt"%string) Examples.helloPage)
  = Some Examples.helloDetails
  /\ Page.content Examples.afterReplacement = "Bye"%string
  /\ List.length (Page.inlineComments Examples.afterReplacement) = 1%nat
  /\ List.length (Page.inlineComments Examples.afterStaleAnswer) = 3%nat
  /\ ~ (Page.inlineComments Examples.afterStaleAnswer
        = Page.inlineComments Examples.afterReplacement).
Proof.
  repeat split; try reflexivity. discriminate.
Qed.

(** C6, as the code has it.  The renderer's walk and the sidebar's list
    both go through the comments in the order of
    [sort((a, b) => a.startIndex - b.startIndex)]: a permutation of the
    store, ascending in [startIndex], in which the comments of one
    [startIndex] keep the order they have in the store.  The creation time
    plays no part: changing the time stamps changes nothing in the order.
    So the order is by start and then by creation time when the store
    already holds the comments of one start in the order of their
    creation. *)
Theorem display_order_by_start_stable (content : string)
    (comments : list InlineComment.t) (p : Page.t) :
  highlightComments (buildSegments content comments)
  = JS.sort compareByStart comments
  /\ fst (sidebarComments (Page.setInlineComments comments p))
     = JS.sort compareByStart comments
  /\ Permutation comments (JS.sort compareByStart comments)
  /\ StronglySorted startsBefore (JS.sort compareByStart comments)
  /\ (forall k, filter (hasStart k) (JS.sort compareByStart comments)
                = filter (hasStart k) comments)
  /\ (forall f, JS.sort compareByStart (map (retime f) comments)
                = map (retime f) (JS.sort compareByStart comments))
  /\ (ForallOrdPairs tieInCreationOrder comments ->
      StronglySorted startThenCreated (JS.sort compareByStart comments)).
Proof.
  split; [apply RendererFacts.buildSegments_highlights|].
  split; [reflexivity|].
  split; [apply RendererFacts.sort_permutation|].
  split; [apply RendererFacts.sort_startsBefore|].
  split; [|split].
  - intros k. exact (JSFacts.sort_stable InlineComment.startIndex k comments).
  - intros f.
    exact (JSFacts.sort_map InlineComment.startIndex (retime f) comments
             (fun _ => eq_refl)).
  - apply RendererFacts.sort_startThenCreated.
Qed.

Lemma display_order_by_start_stable_witness :
  ForallOrdPairs tieInCreationOrder
    [Examples.commentB; Examples.createdEarlier; Examples.createdLater]
  /\ JS.sort compareByStart
       [Examples.commentB; Examples.createdEarlier; Examples.createdLater]
     = [Examples.createdEarlier; Examples.createdLater; Examples.commentB]
  /\ StronglySorted startThenCreated
       (JS.sort compareByStart
          [Examples.commentB; Examples.createdEarlier; Examples.createdLater]).
Proof.
  assert (H : ForallOrdPairs tieInCreationOrder
                [Examples.commentB; Examples.createdEarlier; Examples.createdLater]).
  { repeat constructor; intros H; try discriminate H; reflexivity. }
  split; [exact H|]. split; [reflexivity|].
  apply (display_order_by_start_stable "The quick brown fox"
           [Examples.commentB; Examples.createdEarlier; Examples.createdLater]
           Examples.foxPage).
  exact H.
Defined.

(** C6, as stated, fails: of two comments that start at 0, stored with
    the one created on 2 March in front of the one created on 1 March, the
    walk and the sidebar both take the one created on 2 March first. *)
Lemma display_order_ignores_creation_time :
  ~ StronglySorted startThenCreated
      (highlightComments
         (buildSegments "Hello world"
            [Examples.createdLater; Examples.createdEarlier]))
  /\ ~ StronglySorted startThenCreated
         (fst (sidebarComments
                 (pageShowing "Hello world"
                    [Examples.createdLater; Examples.createdEarlier]))).
Proof.
  assert (H : ~ StronglySorted startThenCreated
                  [Examples.createdLater; Examples.createdEarlier]).
  { intros H. inversion H as [|? ? _ Hall]; subst.
    inversion Hall as [|? ? Hlt _]; subst.
    destruct Hlt as [Hlt|[_ Hle]]; simpl in *; [lia|discriminate]. }
  split; exact H.
Qed.

(* ===================================================================== *)
(** * The selection handler *)
(* ===================================================================== *)

Module SelectionFacts.

(** The text in front of a point is a prefix of the text of the view,
    however the view is cut into text nodes. *)
Lemma textBefore_prefix (view : list string) :
  forall node offset,
    DOM.textBefore view node offset
    = JS.take (positionInView view node offset) (DOM.textContent view).
Proof.
  unfold DOM.textBefore, positionInView.
  induction view as [|s view IH]; intros node offset.
  - destruct node; simpl; destruct offset; reflexivity.
  - destruct node as [|node].
    + simpl. clear IH. revert offset.
      induction s as [|c s IHs]; intros offset; simpl.
      * now destruct offset, (DOM.textContent view).
      * destruct offset; simpl; [reflexivity|]. now rewrite IHs.
    + cbn [firstn nth DOM.textContent fold_right].
      fold (DOM.textContent (firstn node view)).
      fold (DOM.textContent view).
      rewrite JSFacts.string_app_assoc, IH, JSFacts.length_app.
      rewrite <- Nat.add_assoc.
      set (k := (String.length (DOM.textContent (firstn node view))
                 + Nat.min offset (String.length (nth node view EmptyString)))%nat).
      clearbody k. clear IH.
      induction s as [|c s IHs]; simpl; [reflexivity|]. now rewrite IHs.
Qed.


End SelectionFacts.



(** A selection that runs across the end of a highlight: the offsets are
    those of "brown fox" in the text. *)
Example selection_across_highlight :
  textNodes (renderHighlightedContent Examples.foxPageA)
  = ["The "; "quick brown"; " fox"]%string
  /\ Page.selectionRange
       (handleTextSelection
          (textNodes (renderHighlightedContent Examples.foxPageA))
          (Some Examples.brownFoxSelection) Examples.foxPageA)
     = Some (SelectionRange.mk 10 19).
Proof. split; reflexivity. Qed.

(** The selected text is trimmed before its length is taken: the selection
    of " fox", which begins at 15, is stored as "fox" with the offsets 15
    and 18. *)
Example selection_is_trimmed :
  Page.selectedText
    (handleTextSelection
       (textNodes (renderHighlightedContent Examples.foxPageA))
       (Some Examples.spaceFoxSelection) Examples.foxPageA)
  = "fox"%string
  /\ Page.selectionRange
       (handleTextSelection
          (textNodes (renderHighlightedContent Examples.foxPageA))
          (Some Examples.spaceFoxSelection) Examples.foxPageA)
     = Some (SelectionRange.mk 15 18).
Proof. split; reflexivity. Qed.

(* ===================================================================== *)
(** * Update and removal *)
(* ===================================================================== *)

(** C8.  [updateCommentText] replaces the [text] of the comments whose
    [id] is the one given, and nothing else: the store keeps its length and
    order, a comment with that [id] keeps its offsets, author, time stamp,
    AI flag, colour and ids, and a comment with another [id] is unchanged;
    when no comment has that [id] the store is unchanged. *)
Theorem updateCommentText_changes_text_only (idToUpdate newText : string)
    (p : Page.t) :
  Forall2
    (fun c c' =>
       sameButText c c'
       /\ (InlineComment.id c = idToUpdate -> InlineComment.text c' = newText)
       /\ (InlineComment.id c <> idToUpdate -> c' = c))
    (Page.inlineComments p)
    (Page.inlineComments (updateCommentText idToUpdate newText p))
  /\ ((forall c, In c (Page.inlineComments p) -> InlineComment.id c <> idToUpdate) ->
      Page.inlineComments (updateCommentText idToUpdate newText p)
      = Page.inlineComments p).
Proof.
  unfold updateCommentText. cbn [Page.inlineComments Page.toast Page.show Page.setInlineComments].
  induction (Page.inlineComments p) as [|c l [IH1 IH2]]; simpl.
  - split; [constructor|reflexivity].
  - split.
    + constructor; [|exact IH1].
      destruct (String.eqb_spec (InlineComment.id c) idToUpdate) as [Heq|Hne].
      * split; [repeat split|]. split; [reflexivity|]. intros H; now elim H.
      * split; [repeat split|]. split; [intros H; now elim Hne|reflexivity].
    + intros Habs.
      destruct (String.eqb_spec (InlineComment.id c) idToUpdate) as [Heq|Hne].
      * elim (Habs c (or_introl eq_refl) Heq).
      * f_equal. apply IH2. intros d Hd. apply Habs. now right.
Qed.

Lemma updateCommentText_changes_text_only_witness :
  map InlineComment.text
      (Page.inlineComments
         (updateCommentText (InlineComment.id Examples.commentB) "Which one?"
            Examples.foxPage))
  = ["Vivid wording."; "Which one?"]%string
  /\ Page.inlineComments (updateCommentText "nonexistent-id" "Which one?" Examples.foxPage)
     = Page.inlineComments Examples.foxPage.
Proof.
  split; [reflexivity|].
  apply (updateCommentText_changes_text_only "nonexistent-id" "Which one?"
           Examples.foxPage).
  intros c [<-|[<-|[]]]; discriminate.
Defined.

(** C9, as the code has it.  For an [id] that no comment of the store
    has, [removeInlineComment] leaves the store as it is, in length, order
    and values.  The call has no value (the function returns nothing, so
    no [false] either), and it shows the "Comment removed locally" toast
    as it does after a removal. *)
Theorem removeInlineComment_absent_id (idToRemove : string) (p : Page.t)
    (Habsent : forall c, In c (Page.inlineComments p) ->
                         InlineComment.id c <> idToRemove) :
  Page.inlineComments (snd (removeInlineComment idToRemove p))
  = Page.inlineComments p
  /\ fst (removeInlineComment idToRemove p) = undefined
  /\ Page.toasts (snd (removeInlineComment idToRemove p))
     = (Page.toasts p
        ++ [Toast.mk "Comment removed locally" "Save changes to persist."
                     Toast.destructive])%list.
Proof.
  unfold removeInlineComment. cbn [fst snd].
  split; [|split].
  - destruct (isActiveId (Page.activeCommentId p) idToRemove); simpl;
      apply StoreFacts.filter_keeps_all; intros c Hc;
      destruct (String.eqb_spec (InlineComment.id c) idToRemove) as [Heq|Hne];
      auto; elim (Habsent c Hc Heq).
  - reflexivity.
  - destruct (isActiveId (Page.activeCommentId p) idToRemove); reflexivity.
Qed.

Lemma removeInlineComment_absent_id_witness :
  Page.inlineComments (snd (removeInlineComment "nonexistent-id" Examples.foxPage))
  = [Examples.commentA; Examples.commentB]
  /\ fst (removeInlineComment "nonexistent-id" Examples.foxPage) = undefined.
Proof.
  destruct (removeInlineComment_absent_id "nonexistent-id" Examples.foxPage)
    as (Hs & Hr & _).
  - intros c [<-|[<-|[]]]; discriminate.
  - split; [rewrite Hs; reflexivity|exact Hr].
Defined.

(** C9, as stated, fails: [removeInlineComment("nonexistent-id")] on a
    store of two comments leaves the store unchanged but does not return
    [false]; its value is [undefined]. *)
Lemma removeInlineComment_returns_no_boolean :
  ~ (fst (removeInlineComment "nonexistent-id" Examples.foxPage) = boolean false
     /\ Page.inlineComments (snd (removeInlineComment "nonexistent-id" Examples.foxPage))
        = Page.inlineComments Examples.foxPage).
Proof. intros [H _]. discriminate H. Qed.

(* ===================================================================== *)
(** * Rubric scores *)
(* ===================================================================== *)

Module NumberFacts.

Lemma compare_refl (x : JS.number) :
  JS.isNaN x = false -> SFcompare x x = Some Eq.
Proof.
  destruct x as [s|s| |s m e]; simpl; intros H; try discriminate.
  - reflexivity.
  - now destruct s.
  - rewrite Z.compare_refl, Pos.compare_cont_refl. now destruct s.
Qed.

Lemma le_refl (x : JS.number) : JS.isNaN x = false -> JS.le x x = true.
Proof. intros H. unfold JS.le, SFleb. now rewrite compare_refl. Qed.

Lemma le_not_nan (x y : JS.number) : JS.le x y = true -> JS.isNaN y = false.
Proof.
  unfold JS.le, SFleb. destruct y; auto.
  destruct x; simpl; discriminate.
Qed.

(** A Number that compares equal to a zero is a zero. *)
Lemma compare_zero_eq (s : bool) (y : JS.number) :
  SFcompare (S754_zero s) y = Some Eq -> exists s', y = S754_zero s'.
Proof.
  destruct y as [s'|s'| |s' m e]; simpl; intros H; try discriminate.
  - now exists s'.
  - destruct s'; discriminate.
  - destruct s'; discriminate.
Qed.

Section Clamp.
Variable Number_ : string -> JS.number.

(** The clamp stays between 0 and a maximum that is at least 0. *)
Lemma clampScore_bounds (v m : JS.number) :
  JS.le JS.zero m = true ->
  JS.le JS.zero (clampScore v m) = true
  /\ JS.le (clampScore v m) m = true.
Proof.
  intros Hm. pose proof (le_not_nan _ _ Hm) as Hnan.
  unfold clampScore.
  set (v' := if JS.isNaN v then JS.zero else v).
  assert (Hv' : JS.isNaN v' = false).
  { subst v'. destruct (JS.isNaN v) eqn:E; auto. }
  clearbody v'.
  assert (Hzero : forall y, JS.isNaN y = false -> JS.le y m = true ->
               JS.le JS.zero (JS.Math_max JS.zero y) = true
               /\ JS.le (JS.Math_max JS.zero y) m = true).
  { intros y Hy Hym. unfold JS.Math_max.
    destruct (SFcompare JS.zero y) as [[| |]|] eqn:E.
    - simpl. auto.
    - split; auto. unfold JS.le, SFleb. now rewrite E.
    - auto.
    - destruct y; simpl in *; discriminate. }
  unfold JS.Math_min.
  destruct (SFcompare v' m) as [[| |]|] eqn:E.
  - destruct (JS.isNegZero v') eqn:Ez.
    + apply Hzero; auto. unfold JS.le, SFleb. now rewrite E.
    + apply Hzero; auto. now apply le_refl.
  - apply Hzero; auto. unfold JS.le, SFleb. now rewrite E.
  - apply Hzero; auto. now apply le_refl.
  - destruct v', m; simpl in *; discriminate.
Qed.

(** The empty string and a value that is NaN are clamped like 0, and 0
    is clamped to 0 under a maximum that is at least 0. *)
Lemma clampScore_readsAsZero (newScore : ScoreInput) (m : JS.number) :
  readsAsZero Number_ newScore ->
  clampScore (scoreValueOf Number_ newScore) m = clampScore JS.zero m.
Proof.
  intros [->|H]; [reflexivity|].
  unfold clampScore. now rewrite H.
Qed.

Lemma clampScore_zero (m : JS.number) :
  JS.le JS.zero m = true -> clampScore JS.zero m = JS.zero.
Proof.
  unfold JS.le, SFleb, clampScore, JS.Math_min. simpl JS.isNaN. cbv iota.
  destruct (SFcompare JS.zero m) as [[| |]|] eqn:E; try discriminate; intros _.
  - destruct (compare_zero_eq _ _ E) as [s' ->]. now destruct s'.
  - reflexivity.
Qed.
End Clamp.

Lemma at_setAt_same {A : Type} (l : list A) (v x : A) :
  forall index, at_ l index = Some x -> at_ (setAt l (Z.to_nat index) v) index = Some v.
Proof.
  unfold at_. intros index. destruct (index <? 0) eqn:E; [discriminate|].
  generalize (Z.to_nat index). clear. intros n. revert n.
  induction l as [|y l IH]; intros [|n]; simpl; try discriminate; auto.
Qed.

Lemma at_setAt_other {A : Type} (l : list A) (v : A) (index j : Z) :
  0 <= index -> j <> index ->
  at_ (setAt l (Z.to_nat index) v) j = at_ l j.
Proof.
  unfold at_. intros Hi Hj. destruct (j <? 0) eqn:E; [reflexivity|].
  assert (Hn : Z.to_nat j <> Z.to_nat index) by lia.
  revert Hn. generalize (Z.to_nat j) (Z.to_nat index). clear.
  intros a b. revert a b.
  induction l as [|y l IH]; intros [|a] [|b] H; simpl; auto; try congruence.
Qed.

Lemma at_nonneg {A : Type} (l : list A) (index : Z) (x : A) :
  at_ l index = Some x -> 0 <= index.
Proof. unfold at_. destruct (index <? 0) eqn:E; [discriminate|lia]. Qed.

(** No division takes place unless the sum of the maxima is above 0. *)
Lemma newFinalScore_zero_max (l : list SubScore.t) :
  JS.eq (totalMaxScore l) JS.zero = true -> newFinalScore l = JS.zero.
Proof.
  unfold newFinalScore, JS.eq, JS.gt, SFeqb, SFltb.
  destruct (totalMaxScore l) as [s|s| |s m e]; simpl; try discriminate; auto;
    destruct s; discriminate.
Qed.

End NumberFacts.

(** C10, as the code has it.  When [index] addresses a rubric item whose
    [maxScore] is at least 0, the update ends normally and the item then
    holds a score between 0 and its [maxScore], every other item being
    left as it was; an empty string, or an input whose numeric value is
    NaN, is stored as 0; and the recomputed final score is 0 whenever the
    sum of the [maxScore]s equals 0. *)
Theorem updateSubScore_clamps (Number_ : string -> JS.number) (index : Z)
    (newScore : ScoreInput) (p : Page.t) (item : SubScore.t)
    (Hitem : at_ (Page.subScores p) index = Some item)
    (Hmax : JS.le JS.zero (SubScore.maxScore item) = true) :
  scoreWithinBounds (updateSubScore Number_ index newScore p) index
  /\ (exists p',
        updateSubScore Number_ index newScore p = completed p'
        /\ option_map SubScore.maxScore (at_ (Page.subScores p') index)
           = Some (SubScore.maxScore item)
        /\ (forall j, j <> index ->
              at_ (Page.subScores p') j = at_ (Page.subScores p) j)
        /\ (readsAsZero Number_ newScore ->
              scoreAt (Page.subScores p') index = Some JS.zero)
        /\ (JS.eq (totalMaxScore (Page.subScores p')) JS.zero = true ->
              Page.finalScore p' = JS.zero)).
Proof.
  pose proof (NumberFacts.at_nonneg _ _ _ Hitem) as Hidx.
  pose proof (NumberFacts.clampScore_bounds
                (scoreValueOf Number_ newScore) _ Hmax) as [Hlo Hhi].
  unfold updateSubScore. rewrite Hitem.
  set (updated := setAt (Page.subScores p) (Z.to_nat index)
                    (SubScore.withScore item
                       (clampScore (scoreValueOf Number_ newScore)
                          (SubScore.maxScore item)))).
  assert (Hat : at_ updated index
                = Some (SubScore.withScore item
                          (clampScore (scoreValueOf Number_ newScore)
                             (SubScore.maxScore item)))).
  { subst updated. eapply NumberFacts.at_setAt_same; eauto. }
  split.
  - eexists _, _. split; [reflexivity|]. cbn [Page.subScores recalculateFinalScore
      Page.setFinalScore Page.setSubScores].
    split; [exact Hat|]. simpl. auto.
  - eexists. split; [reflexivity|].
    cbn [Page.subScores Page.finalScore recalculateFinalScore
         Page.setFinalScore Page.setSubScores].
    split; [now rewrite Hat|]. split; [|split].
    + intros j Hj. subst updated. now apply NumberFacts.at_setAt_other.
    + intros Hz. unfold scoreAt. rewrite Hat. simpl.
      rewrite (NumberFacts.clampScore_readsAsZero Number_ newScore _ Hz).
      now rewrite NumberFacts.clampScore_zero.
    + apply NumberFacts.newFinalScore_zero_max.
Qed.

Lemma updateSubScore_clamps_witness :
  at_ (Page.subScores Examples.rubricPage) 1
  = Some (SubScore.mk None "Organization/Structure" JS.zero (JS.ofZ 25) "")
  /\ JS.le JS.zero (JS.ofZ 25) = true
  /\ scoreWithinBounds
       (updateSubScore JS.StringToNumber 1 (fromString "40") Examples.rubricPage) 1.
Proof.
  split; [reflexivity|]. split; [reflexivity|].
  apply (updateSubScore_clamps JS.StringToNumber 1 (fromString "40")
           Examples.rubricPage
           (SubScore.mk None "Organization/Structure" JS.zero (JS.ofZ 25) "")
           eq_refl eq_refl).
Defined.

(** An index that addresses no item makes the update throw, and then no
    state is set. *)
Lemma updateSubScore_outside (Number_ : string -> JS.number) (index : Z)
    (newScore : ScoreInput) (p : Page.t) :
  at_ (Page.subScores p) index = None ->
  exists e, updateSubScore Number_ index newScore p = threw e.
Proof. intros H. unfold updateSubScore. rewrite H. eauto. Qed.

(** C10, as stated, fails, in two ways.  On a rubric item whose
    [maxScore] is -5, the input 3 is stored as 0, which is above the
    maximum; and on the default rubric of four items the index 7 makes the
    update throw, so that no score is stored. *)
Lemma updateSubScore_out_of_bounds :
  ~ scoreWithinBounds
      (updateSubScore JS.StringToNumber 0 (fromNumber (JS.ofZ 3))
         Examples.negativeMaxPage) 0
  /\ ~ scoreWithinBounds
         (updateSubScore JS.StringToNumber 7 (fromString "12.5")
            Examples.rubricPage) 7.
Proof.
  split.
  - intros (p' & item & Hc & Hat & _ & Hhi).
    vm_compute in Hc. inversion Hc; subst p'. clear Hc.
    vm_compute in Hat. inversion Hat; subst item. discriminate Hhi.
  - intros (p' & item & Hc & _). vm_compute in Hc. discriminate Hc.
Qed.

(* ===================================================================== *)
(** * The layout of the view *)
(* ===================================================================== *)

Module LayoutFacts.
Import LayoutNotions.

Lemma textContent_truthy (l : list string) :
  DOM.textContent (filter JS.truthy l) = DOM.textContent l.
Proof.
  induction l as [|s l IH]; simpl; auto.
  destruct s; simpl; auto. now rewrite IH.
Qed.

Lemma nodesOf_app (ps qs : list (list Span.t)) :
  DOM.textContent (nodesOf (ps ++ qs))
  = String.append (DOM.textContent (nodesOf ps)) (DOM.textContent (nodesOf qs)).
Proof.
  unfold nodesOf. now rewrite flat_map_app, JSFacts.textContent_app.
Qed.

Lemma nodesOf_one (para : list Span.t) :
  DOM.textContent (nodesOf [para]) = DOM.textContent (map Span.text para).
Proof.
  unfold nodesOf. simpl. now rewrite app_nil_r, textContent_truthy.
Qed.

Lemma laidOut_finish (acc : list (list Span.t) * list Span.t) :
  DOM.textContent (nodesOf (finish acc)) = laidOut acc.
Proof.
  destruct acc as [rp cp]. unfold finish, laidOut. cbn [fst snd].
  destruct cp as [|s cp]; cbn [nonEmpty].
  - simpl. now rewrite JSFacts.string_app_empty.
  - now rewrite nodesOf_app, nodesOf_one.
Qed.

Lemma strip_not_newline (piece : string) :
  stripNewlines piece = piece ->
  String.eqb piece (String JS.newline EmptyString) = false.
Proof.
  intros H. destruct (String.eqb_spec piece (String JS.newline EmptyString))
    as [->|]; auto. discriminate H.
Qed.

Lemma length_strip (s : string) :
  (String.length (stripNewlines s) <= String.length s)%nat.
Proof.
  induction s as [|c s IH]; simpl; auto.
  destruct (Ascii.eqb c JS.newline); simpl; lia.
Qed.

Lemma lineOf_newline : lineOf (String JS.newline EmptyString) = EmptyString.
Proof. reflexivity. Qed.

Lemma lineOf_line (piece : string) :
  stripNewlines piece = piece -> lineOf piece = piece.
Proof. intros H. unfold lineOf. now rewrite (strip_not_newline _ H). Qed.

(** The split of a text: a first piece without line feed, then pieces
    that are a line feed or hold none; without the separators the pieces
    spell the text without its line feeds. *)
Lemma split_shape (s : string) :
  exists piece rest,
    JS.splitKeepNewlines s = piece :: rest
    /\ stripNewlines piece = piece
    /\ Forall pieceWellFormed rest
    /\ String.append piece (DOM.textContent (map lineOf rest))
       = stripNewlines s.
Proof.
  induction s as [|c s (piece & rest & Hs & Hp & Hr & Ht)]; simpl.
  - exists EmptyString, []. repeat split; auto.
  - destruct (Ascii.eqb c JS.newline) eqn:E.
    + exists EmptyString, (String JS.newline EmptyString :: JS.splitKeepNewlines s).
      rewrite Hs. repeat split; auto.
      * constructor; [now left|]. constructor; [now right|exact Hr].
      * cbn [map DOM.textContent fold_right].
        rewrite lineOf_newline, (lineOf_line _ Hp). simpl. exact Ht.
    + rewrite Hs. exists (String c piece), rest. repeat split; auto.
      * simpl. now rewrite E, Hp.
      * simpl. now rewrite Ht.
Qed.

Lemma pushLine_laidOut (acc : list (list Span.t) * list Span.t)
    (line : string) :
  laidOut (pushLine acc line) = String.append (laidOut acc) (lineOf line).
Proof.
  destruct acc as [rp cp]. unfold pushLine, laidOut, lineOf.
  destruct (String.eqb line (String JS.newline EmptyString)).
  - cbn [fst snd]. simpl DOM.textContent at 2.
    rewrite !JSFacts.string_app_empty.
    destruct cp as [|s cp]; cbn [nonEmpty].
    + simpl. now rewrite JSFacts.string_app_empty.
    + now rewrite nodesOf_app, nodesOf_one.
  - destruct line as [|c line]; cbn [JS.truthy fst snd].
    + now rewrite JSFacts.string_app_empty.
    + rewrite map_app, JSFacts.textContent_app. simpl.
      rewrite JSFacts.string_app_empty.
      now rewrite JSFacts.string_app_assoc.
Qed.

Lemma pushLine_wellFormed (acc : list (list Span.t) * list Span.t)
    (line : string) :
  pieceWellFormed line -> accWellFormed acc -> accWellFormed (pushLine acc line).
Proof.
  destruct acc as [rp cp]. intros Hline (H1 & H2 & H3).
  unfold pushLine, accWellFormed in *. cbn [fst snd] in *.
  destruct (String.eqb_spec line (String JS.newline EmptyString)) as [->|Hne].
  - destruct cp as [|s cp]; cbn [nonEmpty fst snd].
    + repeat split; auto.
    + repeat split; auto.
      * apply Forall_app. split; auto. constructor; auto. discriminate.
      * apply Forall_app. split; auto.
  - destruct Hline as [->|Hline]; [now elim Hne|].
    destruct line as [|c line]; cbn [JS.truthy fst snd].
    + repeat split; auto.
    + repeat split; auto. apply Forall_app. split; auto.
      constructor; auto. simpl. split; [discriminate|exact Hline].
Qed.

Lemma lines_laidOut (pieces : list string) :
  forall acc,
    laidOut (fold_left pushLine pieces acc)
    = String.append (laidOut acc) (DOM.textContent (map lineOf pieces)).
Proof.
  induction pieces as [|piece pieces IH]; intros acc; simpl.
  - now rewrite JSFacts.string_app_empty.
  - now rewrite IH, pushLine_laidOut, JSFacts.string_app_assoc.
Qed.

Lemma lines_wellFormed (pieces : list string) :
  forall acc,
    Forall pieceWellFormed pieces -> accWellFormed acc ->
    accWellFormed (fold_left pushLine pieces acc).
Proof.
  induction pieces as [|piece pieces IH]; intros acc Hp Hacc; simpl; auto.
  inversion Hp; subst. apply IH; auto. now apply pushLine_wellFormed.
Qed.

Lemma layoutSegment_laidOut (active : option string)
    (acc : list (list Span.t) * list Span.t) (segment : Segment.t) :
  laidOut (layoutSegment active acc segment)
  = String.append (laidOut acc) (shownText segment).
Proof.
  destruct segment as [content|content comment]; simpl.
  - rewrite lines_laidOut.
    destruct (split_shape content) as (piece & rest & -> & Hp & _ & Ht).
    cbn [map DOM.textContent fold_right].
    rewrite (lineOf_line _ Hp). f_equal. exact Ht.
  - unfold laidOut. cbn [fst snd].
    rewrite map_app, JSFacts.textContent_app. simpl.
    now rewrite JSFacts.string_app_empty, JSFacts.string_app_assoc.
Qed.

Lemma layoutSegment_wellFormed (active : option string)
    (acc : list (list Span.t) * list Span.t) (segment : Segment.t) :
  accWellFormed acc -> accWellFormed (layoutSegment active acc segment).
Proof.
  intros Hacc. destruct segment as [content|content comment]; simpl.
  - apply lines_wellFormed; auto.
    destruct (split_shape content) as (piece & rest & -> & Hp & Hr & _).
    constructor; auto. now right.
  - destruct Hacc as (H1 & H2 & H3). repeat split; auto.
    cbn [snd]. apply Forall_app. split; auto. constructor; simpl; auto.
Qed.

Lemma layout_laidOut (active : option string) (segments : list Segment.t) :
  forall acc,
    laidOut (fold_left (layoutSegment active) segments acc)
    = String.append (laidOut acc) (DOM.textContent (map shownText segments)).
Proof.
  induction segments as [|s segments IH]; intros acc; simpl.
  - now rewrite JSFacts.string_app_empty.
  - now rewrite IH, layoutSegment_laidOut, JSFacts.string_app_assoc.
Qed.

Lemma layout_wellFormed (active : option string) (segments : list Segment.t) :
  forall acc,
    accWellFormed acc ->
    accWellFormed (fold_left (layoutSegment active) segments acc).
Proof.
  induction segments as [|s segments IH]; intros acc Hacc; simpl; auto.
  apply IH. now apply layoutSegment_wellFormed.
Qed.

(** What [renderHighlightedContent] returns, in terms of the layout. *)
Lemma render_unfold (p : Page.t) :
  JS.truthy (Page.content p) = true ->
  renderHighlightedContent p
  = let ps := finish (fold_left (layoutSegment (Page.activeCommentId p))
                        (renderedSegments p) ([], [])) in
    if nonEmpty ps then paragraphs ps
    else placeholder "Submission content seems empty.".
Proof.
  intros H. unfold renderHighlightedContent, renderedSegments, finish.
  rewrite H. cbn [negb].
  destruct (fold_left _ _ _) as [rp cp]. reflexivity.
Qed.

Lemma render_paragraphs (p : Page.t) (ps : list (list Span.t)) :
  renderHighlightedContent p = paragraphs ps ->
  JS.truthy (Page.content p) = true
  /\ ps = finish (fold_left (layoutSegment (Page.activeCommentId p))
                    (renderedSegments p) ([], []))
  /\ ps <> [].
Proof.
  intros H. destruct (JS.truthy (Page.content p)) eqn:E.
  - rewrite (render_unfold p E) in H. cbv zeta in H.
    destruct (finish _) as [|para rest]; cbn [nonEmpty] in H;
      [discriminate|]. inversion H; subst. repeat split; auto. discriminate.
  - unfold renderHighlightedContent in H. rewrite E in H. discriminate.
Qed.

Lemma view_text (p : Page.t) :
  JS.truthy (Page.content p) = true ->
  finish (fold_left (layoutSegment (Page.activeCommentId p))
            (renderedSegments p) ([], [])) <> [] ->
  viewText p = DOM.textContent (map shownText (renderedSegments p)).
Proof.
  intros Ht Hne. unfold viewText. rewrite (render_unfold p Ht). cbv zeta.
  destruct (finish _) as [|para rest] eqn:E; [now elim Hne|].
  cbn [nonEmpty].
  change (textNodes (paragraphs ?x)) with (nodesOf x).
  rewrite <- E, laidOut_finish, layout_laidOut. reflexivity.
Qed.

End LayoutFacts.



(** The paragraphs of the view are well formed: there is at least one,
    none is empty, and a plain span is a non-empty line that holds no line
    feed. *)
Theorem rendered_paragraphs_well_formed (p : Page.t)
    (ps : list (list Span.t))
    (Hrendered : renderHighlightedContent p = paragraphs ps) :
  ps <> []
  /\ Forall (fun para => para <> []) ps
  /\ Forall (Forall spanWellFormed) ps.
Proof.
  destruct (LayoutFacts.render_paragraphs p ps Hrendered) as (_ & Hps & Hne).
  split; auto.
  pose proof (LayoutFacts.layout_wellFormed (Page.activeCommentId p)
                (renderedSegments p) ([], [])) as H.
  destruct H as (H1 & H2 & H3).
  { repeat split; constructor. }
  rewrite Hps. unfold LayoutNotions.finish.
  destruct (fold_left _ _ _) as [rp cp]. cbn [fst snd] in *.
  destruct cp as [|s cp]; cbn [nonEmpty]; auto.
  split; apply Forall_app; split; auto; constructor; auto. discriminate.
Qed.

Lemma rendered_paragraphs_well_formed_witness :
  Forall (fun para : list Span.t => para <> [])
    [[Span.plain "Hello"]; [Span.plain "world"]].
Proof.
  apply (rendered_paragraphs_well_formed MoreExamples.twoLinesPage
           [[Span.plain "Hello"]; [Span.plain "world"]] eq_refl).
Defined.

Module LineFacts.

Lemma strip_take (s : string) :
  stripNewlines s = s -> forall n, stripNewlines (JS.take n s) = JS.take n s.
Proof.
  induction s as [|c s IH]; intros H [|n]; simpl in *; auto.
  destruct (Ascii.eqb c JS.newline) eqn:E.
  - pose proof (LayoutFacts.length_strip s) as Hl.
    rewrite H in Hl. simpl in Hl. lia.
  - inversion H as [H']. rewrite H'. now rewrite IH.
Qed.

Lemma strip_drop (s : string) :
  stripNewlines s = s -> forall n, stripNewlines (JS.drop n s) = JS.drop n s.
Proof.
  induction s as [|c s IH]; intros H [|n]; simpl in *; auto.
  destruct (Ascii.eqb c JS.newline) eqn:E.
  - pose proof (LayoutFacts.length_strip s) as Hl.
    rewrite H in Hl. simpl in Hl. lia.
  - inversion H as [H']. rewrite H'. now apply IH.
Qed.

Lemma strip_substring (s : string) (a b : Z) :
  stripNewlines s = s ->
  stripNewlines (JS.substring s a b) = JS.substring s a b.
Proof.
  intros H. unfold JS.substring, JS.slice.
  apply strip_take. now apply strip_drop.
Qed.

(** Every segment of a text without line feed shows its whole content. *)
Lemma walk_shown (content : string) (l : list InlineComment.t) :
  stripNewlines content = content ->
  forall segs last,
    map shownText segs = map Segment.content segs ->
    map shownText (fst (fold_left (pushComment content) l (segs, last)))
    = map Segment.content (fst (fold_left (pushComment content) l (segs, last))).
Proof.
  intros H. induction l as [|c l IH]; intros segs last Hsegs;
    cbn [fold_left]; auto.
  unfold pushComment at 2 4.
  apply IH.
  destruct (InlineComment.startIndex c >? last);
    rewrite !map_app, Hsegs; simpl; now rewrite ?strip_substring.
Qed.

Lemma buildSegments_shown (content : string) (l : list InlineComment.t) :
  stripNewlines content = content ->
  map shownText (buildSegments content l)
  = map Segment.content (buildSegments content l).
Proof.
  intros H. unfold buildSegments.
  pose proof (walk_shown content (JS.sort compareByStart l) H [] 0 eq_refl) as Hw.
  destruct (fold_left _ _ _) as [segs last]. cbn [fst] in Hw.
  destruct (last <? _); auto.
  rewrite !map_app, Hw. simpl. unfold JS.substringFrom.
  now rewrite strip_substring.
Qed.

End LineFacts.

(** On a text without line feed whose comments are valid and do not
    overlap, the view spells the text; so the text in front of a point of
    the view is the text itself up to that position, and the offsets
    [handleTextSelection] measures in the view are offsets into the
    text. *)
Theorem view_spells_content (p : Page.t)
    (Hnonempty : Page.content p <> EmptyString)
    (Hlines : stripNewlines (Page.content p) = Page.content p)
    (Hvalid : Forall (validRange (Page.content p)) (Page.inlineComments p))
    (Hapart : noOverlap (Page.inlineComments p)) :
  viewText p = Page.content p
  /\ forall node offset,
       DOM.textBefore (textNodes (renderHighlightedContent p)) node offset
       = JS.take (positionInView (textNodes (renderHighlightedContent p))
                                 node offset)
                 (Page.content p).
Proof.
  assert (Htruthy : JS.truthy (Page.content p) = true).
  { destruct (Page.content p); [now elim Hnonempty|reflexivity]. }
  assert (Hshown : DOM.textContent (map shownText (renderedSegments p))
                   = Page.content p).
  { unfold renderedSegments. rewrite Htruthy. cbn [negb].
    rewrite LineFacts.buildSegments_shown by exact Hlines.
    exact (buildSegments_roundtrip _ _ Hvalid Hapart). }
  assert (Hview : viewText p = Page.content p).
  { transitivity (DOM.textContent (map shownText (renderedSegments p)));
      [|exact Hshown].
    apply LayoutFacts.view_text; auto.
    intros Hnil.
    pose proof (LayoutFacts.laidOut_finish
                  (fold_left (layoutSegment (Page.activeCommentId p))
                     (renderedSegments p) ([], []))) as Hf.
    rewrite Hnil, LayoutFacts.layout_laidOut, Hshown in Hf.
    simpl in Hf. now elim Hnonempty. }
  split; [exact Hview|].
  intros node offset. rewrite SelectionFacts.textBefore_prefix.
  unfold viewText in Hview. now rewrite Hview.
Qed.

Lemma view_spells_content_witness :
  viewText (pageShowing Examples.fox [Examples.commentA]) = Examples.fox.
Proof.
  apply (view_spells_content (pageShowing Examples.fox [Examples.commentA])).
  - discriminate.
  - reflexivity.
  - repeat constructor; simpl; lia.
  - repeat constructor.
Defined.

(* ===================================================================== *)
(** * The store under the handlers *)
(* ===================================================================== *)

Module MoreStoreFacts.

(** Sorting what is sorted changes nothing. *)
Lemma sort_sorted_id (l : list InlineComment.t) :
  StronglySorted startsBefore l -> JS.sort compareByStart l = l.
Proof.
  induction 1 as [|x l Hl IH Hx]; simpl; auto.
  rewrite IH. destruct l as [|y l']; simpl; auto.
  inversion Hx as [|? ? Hxy _]; subst. unfold startsBefore in Hxy.
  unfold compareByStart.
  destruct (InlineComment.startIndex x - InlineComment.startIndex y >? 0) eqn:E;
    [lia|reflexivity].
Qed.

Lemma sort_sort (l : list InlineComment.t) :
  JS.sort compareByStart (JS.sort compareByStart l) = JS.sort compareByStart l.
Proof. apply sort_sorted_id, RendererFacts.sort_startsBefore. Qed.

Lemma filter_filter {A : Type} (f g : A -> bool) (l : list A) :
  (forall x, f x = true -> g x = true) ->
  filter f (filter g l) = filter f l.
Proof.
  intros H. induction l as [|x l IH]; simpl; auto.
  destruct (g x) eqn:Eg; simpl.
  - destruct (f x); now rewrite IH.
  - destruct (f x) eqn:Ef; [rewrite (H x Ef) in Eg; discriminate|exact IH].
Qed.


(** The segments' texts depend on the offsets of the comments only. *)
Lemma walk_contents (content : string) (f : InlineComment.t -> InlineComment.t)
    (Hs : forall c, InlineComment.startIndex (f c) = InlineComment.startIndex c)
    (He : forall c, InlineComment.endIndex (f c) = InlineComment.endIndex c)
    (l : list InlineComment.t) :
  forall segs segs' last,
    map Segment.content segs' = map Segment.content segs ->
    map Segment.content
      (fst (fold_left (pushComment content) (map f l) (segs', last)))
    = map Segment.content
        (fst (fold_left (pushComment content) l (segs, last)))
    /\ snd (fold_left (pushComment content) (map f l) (segs', last))
       = snd (fold_left (pushComment content) l (segs, last)).
Proof.
  induction l as [|c l IH]; intros segs segs' last Hsegs;
    cbn [map fold_left]; auto.
  unfold pushComment at 2 4 6 8. rewrite Hs, He.
  apply IH.
  destruct (InlineComment.startIndex c >? last);
    rewrite !map_app, Hsegs; reflexivity.
Qed.

Lemma buildSegments_contents (content : string)
    (f : InlineComment.t -> InlineComment.t)
    (Hs : forall c, InlineComment.startIndex (f c) = InlineComment.startIndex c)
    (He : forall c, InlineComment.endIndex (f c) = InlineComment.endIndex c)
    (l : list InlineComment.t) :
  map Segment.content (buildSegments content (map f l))
  = map Segment.content (buildSegments content l).
Proof.
  unfold buildSegments.
  replace (JS.sort compareByStart (map f l))
    with (map f (JS.sort compareByStart l))
    by (symmetry; exact (JSFacts.sort_map InlineComment.startIndex f l Hs)).
  destruct (walk_contents content f Hs He (JS.sort compareByStart l)
              [] [] 0 eq_refl) as [H1 H2].
  destruct (fold_left (pushComment content) (map f _) _) as [segs' last'].
  destruct (fold_left (pushComment content) (JS.sort compareByStart l) _)
    as [segs last].
  cbn [fst snd] in H1, H2. subst last'.
  destruct (last <? _); rewrite ?map_app, H1; reflexivity.
Qed.

Lemma remove_store (i : string) (q : Page.t) :
  Page.inlineComments (snd (removeInlineComment i q))
  = filter (fun c => negb (String.eqb (InlineComment.id c) i))
      (Page.inlineComments q).
Proof.
  unfold removeInlineComment. cbn [snd].
  destruct (isActiveId _ _); reflexivity.
Qed.

Lemma remove_active (i : string) (q : Page.t) :
  Page.activeCommentId (snd (removeInlineComment i q))
  = if isActiveId (Page.activeCommentId q) i then None
    else Page.activeCommentId q.
Proof.
  unfold removeInlineComment. cbn [snd].
  destruct (isActiveId _ _); reflexivity.
Qed.

Lemma editText_start (i t : string) (c : InlineComment.t) :
  InlineComment.startIndex (editText i t c) = InlineComment.startIndex c.
Proof. unfold editText. now destruct (String.eqb _ _). Qed.

Lemma editText_end (i t : string) (c : InlineComment.t) :
  InlineComment.endIndex (editText i t c) = InlineComment.endIndex c.
Proof. unfold editText. now destruct (String.eqb _ _). Qed.

End MoreStoreFacts.

(** The sidebar sorts the array of the state itself, and that settles it:
    the store is then the list the sidebar shows, a further rendering of
    the sidebar changes nothing, and the content view, which sorts a copy,
    is the same before and after. *)
Theorem sidebar_sort_settles (p : Page.t) :
  Page.inlineComments (snd (sidebarComments p)) = fst (sidebarComments p)
  /\ sidebarComments (snd (sidebarComments p))
     = (fst (sidebarComments p), snd (sidebarComments p))
  /\ renderHighlightedContent (snd (sidebarComments p))
     = renderHighlightedContent p.
Proof.
  unfold sidebarComments. cbn [fst snd].
  cbn [Page.inlineComments Page.setInlineComments].
  rewrite MoreStoreFacts.sort_sort.
  split; [reflexivity|]. split; [reflexivity|].
  unfold renderHighlightedContent, Page.content.
  cbn [Page.submissionDetails Page.inlineComments Page.activeCommentId
       Page.setInlineComments].
  unfold buildSegments. now rewrite MoreStoreFacts.sort_sort.
Qed.

(** [removeInlineComment] takes out every comment with the given id and
    nothing else: none with that id is left, any selection of comments
    that leaves that id out reads the same before and after, the active
    comment is never the removed id afterwards, and a second removal
    changes nothing in the store. *)
Theorem removeInlineComment_removes (idToRemove : string) (p : Page.t) :
  let p' := snd (removeInlineComment idToRemove p) in
  Forall (fun c => InlineComment.id c <> idToRemove) (Page.inlineComments p')
  /\ (forall keep : InlineComment.t -> bool,
        (forall c, keep c = true -> InlineComment.id c <> idToRemove) ->
        filter keep (Page.inlineComments p') = filter keep (Page.inlineComments p))
  /\ Page.activeCommentId p' <> Some idToRemove
  /\ Page.inlineComments (snd (removeInlineComment idToRemove p'))
     = Page.inlineComments p'.
Proof.
  intros p'. subst p'.
  rewrite (MoreStoreFacts.remove_store idToRemove
             (snd (removeInlineComment idToRemove p))).
  rewrite MoreStoreFacts.remove_store, MoreStoreFacts.remove_active.
  split; [|split; [|split]].
  - apply Forall_forall. intros c Hc. apply filter_In in Hc as [_ Hc].
    destruct (String.eqb_spec (InlineComment.id c) idToRemove); [discriminate|auto].
  - intros keep Hkeep. apply MoreStoreFacts.filter_filter.
    intros c Hc. specialize (Hkeep c Hc).
    destruct (String.eqb_spec (InlineComment.id c) idToRemove); [contradiction|auto].
  - unfold isActiveId.
    destruct (Page.activeCommentId p) as [a|]; [|discriminate].
    destruct (String.eqb_spec a idToRemove) as [->|Hne]; congruence.
  - apply MoreStoreFacts.filter_filter. auto.
Qed.



(** A second click on "Add Comment" adds nothing: the first click either
    did nothing, or it added the comment and cleared the pending selection
    and body, without which the handler returns at once. *)
Theorem add_click_twice (fresh1 fresh2 : Fresh.t) (user1 user2 : option string)
    (p : Page.t) :
  handleAddCommentClick fresh2 user2 (handleAddCommentClick fresh1 user1 p)
  = handleAddCommentClick fresh1 user1 p.
Proof.
  assert (Hnone : forall f u q, Page.selectionRange q = None ->
                                handleAddCommentClick f u q = q).
  { intros f u q H. unfold handleAddCommentClick. now rewrite H. }
  assert (Hblank : forall f u q,
             JS.truthy (JS.trim (Page.newCommentText q)) = false ->
             handleAddCommentClick f u q = q).
  { intros f u q H. unfold handleAddCommentClick. rewrite H.
    now destruct (Page.selectionRange q). }
  destruct (Page.selectionRange p) as [r|] eqn:Er.
  - destruct (JS.truthy (JS.trim (Page.newCommentText p))) eqn:Eb.
    + apply Hnone. unfold handleAddCommentClick. rewrite Er, Eb. reflexivity.
    + rewrite (Hblank fresh1 user1 p Eb). now apply Hblank.
  - rewrite (Hnone fresh1 user1 p Er). now apply Hnone.
Qed.

(** Editing the text of a comment moves nothing: the display order is the
    order before the edit, with the edited comments in the places they
    had, and the segments of the content view carry the same texts. *)
Theorem edit_keeps_display (idToUpdate newText : string) (content : string)
    (p : Page.t) :
  let store := Page.inlineComments p in
  let store' := Page.inlineComments (updateCommentText idToUpdate newText p) in
  JS.sort compareByStart store'
  = map (editText idToUpdate newText) (JS.sort compareByStart store)
  /\ map Segment.content (buildSegments content store')
     = map Segment.content (buildSegments content store)
  /\ map InlineComment.id store' = map InlineComment.id store.
Proof.
  intros store store'. subst store store'. unfold updateCommentText.
  cbn [Page.inlineComments Page.toast Page.show Page.setInlineComments].
  fold (editText idToUpdate newText).
  split; [|split].
  - apply (JSFacts.sort_map InlineComment.startIndex).
    apply MoreStoreFacts.editText_start.
  - apply MoreStoreFacts.buildSegments_contents.
    + apply MoreStoreFacts.editText_start.
    + apply MoreStoreFacts.editText_end.
  - rewrite map_map. apply map_ext. intros c. unfold editText.
    now destruct (String.eqb _ _).
Qed.

(* ===================================================================== *)
(** * Analysis and loading *)
(* ===================================================================== *)

(** A successful analysis only adds: the comments of the store stay as
    they are, in front of the added ones; what is added is marked as
    AI-generated, by "AI Assistant", without database id; the rubric, the
    final score and the pending selection are not touched. *)
Theorem analysis_only_adds (captured : SubmissionDetails.t)
    (fresh : nat -> Fresh.t) (r : AnalysisResult.t) (p : Page.t) :
  let p' := handleAnalyzeWithAI_response captured fresh (succeeded r) p in
  (exists added,
      Page.inlineComments p' = (Page.inlineComments p ++ added)%list
      /\ Forall addedByAnalysis added)
  /\ Page.subScores p' = Page.subScores p
  /\ Page.finalScore p' = Page.finalScore p
  /\ Page.selectionRange p' = Page.selectionRange p
  /\ Page.newCommentText p' = Page.newCommentText p
  /\ Page.isAnalyzing p' = false.
Proof.
  intros p'. subst p'. split.
  - exists (mapi (suggestedComment fresh) 0 (suggestionsOf r)).
    split; [apply StoreFacts.response_store|].
    generalize 0%nat. induction (suggestionsOf r) as [|s l IH]; intros n; simpl.
    + constructor.
    + constructor; [repeat split|apply IH].
  - unfold handleAnalyzeWithAI_response.
    destruct (AnalysisResult.suggestedOverallFeedback r);
      destruct (AnalysisResult.suggestedInlineComments r) as [[|s l]|];
      destruct (AnalysisResult.aiCheckResults r);
      destruct (SubmissionDetails.aiCheckerResults captured);
      repeat split.
Qed.

(** The analysis never overwrites feedback that is already there: a field
    of the overall feedback that is not empty keeps its value. *)
Theorem analysis_keeps_typed_feedback (captured : SubmissionDetails.t)
    (fresh : nat -> Fresh.t) (r : AnalysisResult.t) (p : Page.t)
    (field : FeedbackField)
    (Htyped : JS.truthy (fieldOf field (Page.overallFeedback p)) = true) :
  fieldOf field
    (Page.overallFeedback
       (handleAnalyzeWithAI_response captured fresh (succeeded r) p))
  = fieldOf field (Page.overallFeedback p).
Proof.
  unfold handleAnalyzeWithAI_response.
  destruct (AnalysisResult.suggestedOverallFeedback r);
    destruct (AnalysisResult.suggestedInlineComments r) as [[|s l]|];
    destruct (AnalysisResult.aiCheckResults r);
    destruct (SubmissionDetails.aiCheckerResults captured);
    destruct field; simpl in *; unfold orElse; now rewrite ?Htyped.
Qed.

Lemma analysis_keeps_typed_feedback_witness :
  OverallFeedback.strengths
    (Page.overallFeedback
       (handleAnalyzeWithAI_response Examples.helloDetails Examples.freshAt
          (succeeded
             (AnalysisResult.mk
                (Some (OverallFeedback.mk "Clear." "Add sources." "Revise."))
                None None))
          (updateOverallFeedback strengths "Well argued." Examples.helloPage)))
  = "Well argued."%string.
Proof.
  apply (analysis_keeps_typed_feedback Examples.helloDetails Examples.freshAt
           (AnalysisResult.mk
              (Some (OverallFeedback.mk "Clear." "Add sources." "Revise."))
              None None)
           (updateOverallFeedback strengths "Well argued." Examples.helloPage)
           strengths eq_refl).
Defined.

(** The analysis request is sent exactly when the submission has a text
    and a token is stored; the closure then holds the submission of that
    moment, the page is analysing and its error is cleared.  In no case
    does the request change the comments. *)
Theorem analysis_request_gate (token : option string) (p : Page.t)
    (d : SubmissionDetails.t) :
  (snd (handleAnalyzeWithAI_request token p) = Some d
   <-> Page.submissionDetails p = Some d
       /\ JS.truthy (SubmissionDetails.content d) = true
       /\ tokenPresent token = true)
  /\ (snd (handleAnalyzeWithAI_request token p) = Some d ->
      Page.isAnalyzing (fst (handleAnalyzeWithAI_request token p)) = true
      /\ Page.error (fst (handleAnalyzeWithAI_request token p)) = None)
  /\ Page.inlineComments (fst (handleAnalyzeWithAI_request token p))
     = Page.inlineComments p.
Proof.
  unfold handleAnalyzeWithAI_request, tokenPresent.
  destruct (Page.submissionDetails p) as [d0|]; cbn [fst snd].
  - destruct (JS.truthy (SubmissionDetails.content d0)) eqn:Ec; cbn [negb fst snd].
    + destruct token as [tk|]; [destruct (JS.truthy tk) eqn:Et|]; cbn [fst snd].
      * split; [split|split; auto].
        -- intros H; inversion H; subst. auto.
        -- intros (H & _ & _). inversion H; subst. reflexivity.
      * split; [split|split; auto]; [discriminate| |discriminate].
        intros (_ & _ & H). discriminate.
      * split; [split|split; auto]; [discriminate| |discriminate].
        intros (_ & _ & H). discriminate.
    + split; [split|split; auto]; [discriminate| |discriminate].
      intros (H & Hc & _). inversion H; subst. congruence.
  - split; [split|split; auto]; [discriminate| |discriminate].
    intros (H & _). discriminate.
Qed.

Lemma analysis_request_gate_witness :
  snd (handleAnalyzeWithAI_request (Some "jwt"%string) Examples.helloPage)
  = Some Examples.helloDetails
  /\ Page.isAnalyzing
       (fst (handleAnalyzeWithAI_request (Some "jwt"%string) Examples.helloPage))
     = true.
Proof.
  destruct (analysis_request_gate (Some "jwt"%string) Examples.helloPage
              Examples.helloDetails) as (Hiff & Hsent & _).
  assert (H : snd (handleAnalyzeWithAI_request (Some "jwt"%string) Examples.helloPage)
              = Some Examples.helloDetails).
  { apply Hiff. repeat split. }
  split; [exact H|]. exact (proj1 (Hsent H)).
Defined.

(** A load forgets the grading state it starts from: two pages that load
    the same submission end with the same submission, comments, feedback,
    rubric and final score, and the comments are those of the submission.
    The pending selection and the comment mode are not part of what is
    reset: they are after the load what they were before. *)
Theorem load_forgets_grading (token : option string)
    (data : SubmissionDetails.t) (p q : Page.t) :
  Page.submissionDetails (load token data p) = Page.submissionDetails (load token data q)
  /\ Page.inlineComments (load token data p) = Page.inlineComments (load token data q)
  /\ Page.overallFeedback (load token data p) = Page.overallFeedback (load token data q)
  /\ Page.subScores (load token data p) = Page.subScores (load token data q)
  /\ Page.finalScore (load token data p) = Page.finalScore (load token data q)
  /\ Page.inlineComments (load token data p) = loadedComments data
  /\ Page.content (load token data p) = SubmissionDetails.content data
  /\ Page.selectionRange (load token data p) = Page.selectionRange p
  /\ Page.selectedText (load token data p) = Page.selectedText p
  /\ Page.isCommentMode (load token data p) = Page.isCommentMode p.
Proof.
  unfold load, fetchSubmissionDetails_request, fetchSubmissionDetails_response,
    loadedComments.
  destruct token as [tk|]; [destruct (JS.truthy tk)|];
    destruct (SubmissionDetails.overallFeedback data) as [f|];
    try destruct (hasFeedback f);
    destruct (SubmissionDetails.subScores data) as [[|s l]|];
    repeat split.
Qed.

(** The comments of a loaded submission go by their database id: a comment
    that has a non-empty [_id] gets it as its [id], and every comment
    keeps its offsets, its text, its author, its time stamp and its
    place. *)
Theorem load_uses_database_ids (token : option string)
    (data : SubmissionDetails.t) (p : Page.t) (comments : list InlineComment.t)
    (Hcomments : SubmissionDetails.inlineComments data = Some comments) :
  Forall2 loadedFrom comments (Page.inlineComments (load token data p)).
Proof.
  unfold load.
  destruct (StoreFacts.fetch_response_store data
              (fst (fetchSubmissionDetails_request token p))) as [-> _].
  unfold loadedComments. rewrite Hcomments. clear Hcomments.
  induction comments as [|c l IH]; simpl; constructor; auto.
  unfold loadedFrom, InlineComment.withDbId. simpl.
  repeat split.
  - intros d Hd Ht. now rewrite Hd, Ht.
  - intros Hd. now rewrite Hd.
Qed.

Lemma load_uses_database_ids_witness :
  SubmissionDetails.inlineComments Examples.otherDetails
  = Some [Examples.otherComment]
  /\ Forall2 loadedFrom [Examples.otherComment]
       (Page.inlineComments
          (load (Some "jwt"%string) Examples.otherDetails Examples.foxPage)).
Proof.
  split; [reflexivity|].
  exact (load_uses_database_ids (Some "jwt"%string) Examples.otherDetails
           Examples.foxPage [Examples.otherComment] eq_refl).
Defined.

(* ===================================================================== *)
(** * The rubric *)
(* ===================================================================== *)

Module RubricFacts.

Lemma nth_error_mapi {A B : Type} (f : nat -> A -> B) (l : list A) :
  forall i n,
    nth_error (mapi f i l) n = option_map (f (i + n)%nat) (nth_error l n).
Proof.
  induction l as [|x l IH]; intros i [|n]; simpl; auto.
  - now rewrite Nat.add_0_r.
  - rewrite IH. now rewrite Nat.add_succ_r.
Qed.

Lemma mapi_id {A : Type} (f : nat -> A -> A) (l : list A) :
  forall i,
    (forall n x, nth_error l n = Some x -> f (i + n)%nat x = x) ->
    mapi f i l = l.
Proof.
  induction l as [|x l IH]; intros i H; simpl; auto.
  f_equal.
  - specialize (H 0%nat x eq_refl). now rewrite Nat.add_0_r in H.
  - apply IH. intros n y Hn. specialize (H (S n) y Hn).
    now rewrite Nat.add_succ_r in H.
Qed.

Lemma totals_sameMarks (l l' : list SubScore.t) :
  Forall2 sameMarks l l' ->
  totalScore l' = totalScore l /\ totalMaxScore l' = totalMaxScore l.
Proof.
  intros H. unfold totalScore, totalMaxScore.
  assert (Hgen : forall a b,
            fold_left (fun sum item => JS.add sum (JS.orZero (SubScore.score item))) l' a
            = fold_left (fun sum item => JS.add sum (JS.orZero (SubScore.score item))) l a
            /\ fold_left (fun sum item => JS.add sum (JS.orZero (SubScore.maxScore item))) l' b
               = fold_left (fun sum item => JS.add sum (JS.orZero (SubScore.maxScore item))) l b).
  { induction H as [|s s' l l' [Hs Hm] _ IH]; intros a b; simpl; auto.
    rewrite Hs, Hm. apply IH. }
  apply Hgen.
Qed.

Lemma mapi_sameMarks (index : Z) (rationale : string) (l : list SubScore.t) :
  forall i,
    Forall2 sameMarks l
      (mapi (fun i s => if Z.of_nat i =? index
                        then SubScore.mk (SubScore._id s) (SubScore.name s)
                               (SubScore.score s) (SubScore.maxScore s) rationale
                        else s) i l).
Proof.
  induction l as [|s l IH]; intros i; simpl; constructor; auto.
  destruct (Z.of_nat i =? index); split; reflexivity.
Qed.

(** Comparing the other way round gives the opposite result. *)
Lemma compare_antisym (x y : JS.number) :
  SFcompare y x = option_map CompOpp (SFcompare x y).
Proof.
  destruct x as [sx|sx| |sx mx ex], y as [sy|sy| |sy my ey]; simpl; auto;
    try (destruct sx; reflexivity); try (destruct sy; reflexivity);
    try (destruct sx, sy; reflexivity).
  pose proof (Pos.compare_cont_antisym mx my Eq) as Ha. simpl in Ha.
  rewrite (Z.compare_antisym ex ey).
  destruct (ex ?= ey)%Z; simpl; destruct sx, sy; simpl; auto;
    rewrite <- Ha; now rewrite ?CompOpp_involutive.
Qed.

Lemma compare_eq_zero (v : JS.number) (s : bool) :
  SFcompare v (S754_zero s) = Some Eq -> exists s', v = S754_zero s'.
Proof.
  destruct v as [s'|s'| |s' m e]; simpl; intros H; try discriminate.
  - now exists s'.
  - destruct s'; discriminate.
  - destruct s'; discriminate.
Qed.

Lemma eq_refl_number (x : JS.number) : JS.isNaN x = false -> JS.eq x x = true.
Proof. intros H. unfold JS.eq, SFeqb. now rewrite NumberFacts.compare_refl. Qed.

(** The three ways of the clamp, under a maximum that is at least 0. *)
Lemma clampScore_cases (v m : JS.number) :
  JS.le JS.zero m = true ->
  (JS.gt JS.zero v = true -> clampScore v m = JS.zero)
  /\ (JS.le JS.zero v = true -> JS.le v m = true ->
      JS.eq (clampScore v m) v = true)
  /\ (JS.gt v m = true -> JS.eq (clampScore v m) m = true).
Proof.
  intros Hm. pose proof (NumberFacts.le_not_nan _ _ Hm) as Hmnan.
  assert (Hmax : forall y, JS.le JS.zero y = true ->
             JS.eq (JS.Math_max JS.zero y) y = true).
  { intros y Hy. pose proof (NumberFacts.le_not_nan _ _ Hy) as Hynan.
    unfold JS.le, SFleb in Hy. unfold JS.Math_max.
    destruct (SFcompare JS.zero y) as [[| |]|] eqn:E; try discriminate.
    - simpl. unfold JS.eq, SFeqb. now rewrite E.
    - now apply eq_refl_number. }
  split; [|split].
  - intros Hv. unfold JS.gt, SFltb in Hv. unfold JS.le, SFleb in Hm.
    destruct v as [sv|sv| |sv mv ev]; try discriminate;
      destruct sv; try discriminate;
      destruct m as [sm|sm| |sm mm em]; try discriminate;
      try (destruct sm; try discriminate); reflexivity.
  - intros Hlo Hhi. pose proof (NumberFacts.le_not_nan _ _ Hlo) as Hvnan.
    unfold clampScore. rewrite Hvnan.
    unfold JS.le, SFleb in Hhi. unfold JS.Math_min.
    destruct (SFcompare v m) as [[| |]|] eqn:E; try discriminate.
    + destruct (JS.isNegZero v) eqn:Ez; [now apply Hmax|].
      pose proof (Hmax m Hm) as Hmm.
      unfold JS.eq, SFeqb in *.
      destruct (SFcompare (JS.Math_max JS.zero m) m) as [[| |]|] eqn:E1;
        try discriminate.
      unfold JS.Math_max in *. unfold JS.le, SFleb in Hm.
      destruct (SFcompare JS.zero m) as [[| |]|] eqn:E2; try discriminate.
      * simpl. destruct (NumberFacts.compare_zero_eq _ _ E2) as [s' ->].
        destruct (compare_eq_zero _ _ E) as [s'' ->]. reflexivity.
      * rewrite (compare_antisym v m), E. reflexivity.
    + now apply Hmax.
  - intros Hgt. unfold JS.gt, SFltb in Hgt. unfold clampScore.
    assert (Hvnan : JS.isNaN v = false).
    { destruct v; auto. destruct m; discriminate. }
    rewrite Hvnan. unfold JS.Math_min.
    rewrite (compare_antisym m v).
    destruct (SFcompare m v) as [[| |]|]; try discriminate. simpl.
    now apply Hmax.
Qed.

Lemma updateSubScore_stores (Number_ : string -> JS.number) (index : Z)
    (newScore : ScoreInput) (p : Page.t) (item : SubScore.t) :
  at_ (Page.subScores p) index = Some item ->
  exists p',
    updateSubScore Number_ index newScore p = completed p'
    /\ scoreAt (Page.subScores p') index
       = Some (clampScore (scoreValueOf Number_ newScore)
                          (SubScore.maxScore item))
    /\ Page.finalScore p' = newFinalScore (Page.subScores p').
Proof.
  intros Hitem. unfold updateSubScore. rewrite Hitem.
  eexists. split; [reflexivity|].
  cbn [Page.subScores Page.finalScore recalculateFinalScore
       Page.setFinalScore Page.setSubScores].
  split; [|reflexivity]. unfold scoreAt.
  now rewrite (NumberFacts.at_setAt_same _ _ _ _ Hitem).
Qed.

End RubricFacts.

(** What a score update stores, for an item whose maximum is at least 0:
    0 for an input below 0, the input itself for an input between 0 and
    the maximum, the maximum for an input above it (equal as Numbers: a
    zero may change its sign); and the final score shown afterwards is the
    one computed from the rubric. *)
Theorem updateSubScore_three_ways (Number_ : string -> JS.number) (index : Z)
    (newScore : ScoreInput) (p : Page.t) (item : SubScore.t)
    (Hitem : at_ (Page.subScores p) index = Some item)
    (Hmax : JS.le JS.zero (SubScore.maxScore item) = true) :
  exists p' stored,
    updateSubScore Number_ index newScore p = completed p'
    /\ scoreAt (Page.subScores p') index = Some stored
    /\ (JS.gt JS.zero (scoreValueOf Number_ newScore) = true ->
        stored = JS.zero)
    /\ (JS.le JS.zero (scoreValueOf Number_ newScore) = true ->
        JS.le (scoreValueOf Number_ newScore) (SubScore.maxScore item) = true ->
        JS.eq stored (scoreValueOf Number_ newScore) = true)
    /\ (JS.gt (scoreValueOf Number_ newScore) (SubScore.maxScore item) = true ->
        JS.eq stored (SubScore.maxScore item) = true)
    /\ Page.finalScore p' = newFinalScore (Page.subScores p').
Proof.
  destruct (RubricFacts.updateSubScore_stores Number_ index newScore p item Hitem)
    as (p' & Hc & Hs & Hf).
  destruct (RubricFacts.clampScore_cases (scoreValueOf Number_ newScore)
              (SubScore.maxScore item) Hmax) as (H1 & H2 & H3).
  exists p', (clampScore (scoreValueOf Number_ newScore) (SubScore.maxScore item)).
  repeat split; auto.
Qed.

Lemma updateSubScore_three_ways_witness :
  exists p',
    updateSubScore JS.StringToNumber 1 (fromString "12.5") Examples.rubricPage
    = completed p'
    /\ scoreAt (Page.subScores p') 1 = Some (JS.StringToNumber "12.5").
Proof.
  destruct (updateSubScore_three_ways JS.StringToNumber 1 (fromString "12.5")
              Examples.rubricPage
              (SubScore.mk None "Organization/Structure" JS.zero (JS.ofZ 25) "")
              eq_refl eq_refl) as (p' & stored & Hc & Hs & _ & Hin & _).
  exists p'. split; [exact Hc|].
  vm_compute in Hc. inversion Hc; subst p'. reflexivity.
Defined.

(** Editing a rationale touches nothing but that rationale: the item at
    the index gets it, keeping its name, score and maximum; every other
    item is unchanged; the final score stays, and is still what the rubric
    computes to if it was so before. *)
Theorem rationale_edit_keeps_marks (index : Z) (rationale : string)
    (p : Page.t) (item : SubScore.t)
    (Hitem : at_ (Page.subScores p) index = Some item) :
  let p' := updateSubScoreRationale index rationale p in
  at_ (Page.subScores p') index = Some (withRationale item rationale)
  /\ (forall j, j <> index ->
        at_ (Page.subScores p') j = at_ (Page.subScores p) j)
  /\ Page.finalScore p' = Page.finalScore p
  /\ newFinalScore (Page.subScores p') = newFinalScore (Page.subScores p).
Proof.
  intros p'. subst p'. unfold updateSubScoreRationale.
  cbn [Page.subScores Page.finalScore Page.setSubScores].
  split; [|split; [|split]].
  - unfold at_ in *. destruct (index <? 0) eqn:E; [discriminate|].
    apply Z.ltb_ge in E.
    rewrite RubricFacts.nth_error_mapi, Hitem. simpl.
    rewrite Z2Nat.id by lia. now rewrite Z.eqb_refl.
  - intros j Hj. unfold at_. destruct (j <? 0) eqn:E; [reflexivity|].
    apply Z.ltb_ge in E.
    rewrite RubricFacts.nth_error_mapi. simpl.
    rewrite Z2Nat.id by lia.
    destruct (j =? index) eqn:E'; [lia|].
    now destruct (nth_error (Page.subScores p) (Z.to_nat j)).
  - reflexivity.
  - unfold newFinalScore.
    destruct (RubricFacts.totals_sameMarks _ _
                (RubricFacts.mapi_sameMarks index rationale (Page.subScores p) 0))
      as [-> ->].
    reflexivity.
Qed.

Lemma rationale_edit_keeps_marks_witness :
  at_ (Page.subScores
         (updateSubScoreRationale 1 "Clear structure." Examples.rubricPage)) 1
  = Some (SubScore.mk None "Organization/Structure" JS.zero (JS.ofZ 25)
            "Clear structure.").
Proof.
  apply (rationale_edit_keeps_marks 1 "Clear structure." Examples.rubricPage
           (SubScore.mk None "Organization/Structure" JS.zero (JS.ofZ 25) "")
           eq_refl).
Defined.

(** An index that addresses no rubric item: the rationale update changes
    nothing, where the score update throws. *)
Theorem outside_index_rationale_vs_score (Number_ : string -> JS.number)
    (index : Z) (rationale : string) (newScore : ScoreInput) (p : Page.t)
    (Hnone : at_ (Page.subScores p) index = None) :
  updateSubScoreRationale index rationale p = p
  /\ exists e, updateSubScore Number_ index newScore p = threw e.
Proof.
  split.
  - unfold updateSubScoreRationale.
    rewrite RubricFacts.mapi_id; [now destruct p|].
    intros n x Hn. simpl. destruct (Z.of_nat n =? index) eqn:E; auto.
    apply Z.eqb_eq in E. subst index. unfold at_ in Hnone.
    destruct (Z.of_nat n <? 0) eqn:E'; [apply Z.ltb_lt in E'; lia|].
    rewrite Nat2Z.id in Hnone. congruence.
  - unfold updateSubScore. rewrite Hnone. eauto.
Qed.

Lemma outside_index_rationale_vs_score_witness :
  updateSubScoreRationale 7 "Clear structure." Examples.rubricPage
  = Examples.rubricPage.
Proof.
  apply (outside_index_rationale_vs_score JS.StringToNumber 7
           "Clear structure." (fromString "12.5") Examples.rubricPage eq_refl).
Defined.

(* ===================================================================== *)
(** * The pending selection, over every run of the page *)
(* ===================================================================== *)

Module RunFacts.

(** What leaves the selection range and the selected text alone keeps
    the selection well formed. *)
Lemma frame (p p' : Page.t) :
  Page.selectionRange p' = Page.selectionRange p ->
  Page.selectedText p' = Page.selectedText p ->
  selectionWellFormed p -> selectionWellFormed p'.
Proof. unfold selectionWellFormed. intros -> ->. auto. Qed.

Lemma cleared (p p' : Page.t) :
  Page.selectionRange p' = None -> selectionWellFormed p'.
Proof. unfold selectionWellFormed. now intros ->. Qed.

Lemma handleTextSelection_wellFormed (view : list string)
    (selection : option DOM.Selection) (p : Page.t) :
  selectionWellFormed p ->
  selectionWellFormed (handleTextSelection view selection p).
Proof.
  intros Hp. unfold handleTextSelection.
  destruct (negb (Page.isCommentMode p)); auto.
  destruct selection as [sel|]; [|now apply (cleared p)].
  destruct ((DOM.rangeCount sel =? 0)%nat || negb (DOM.anchorInContent sel));
    [now apply (cleared p)|].
  destruct (JS.trim (DOM.toString sel)) as [|c t] eqn:Et;
    [now apply (cleared p)|].
  unfold selectionWellFormed. simpl. repeat split; try lia. discriminate.
Qed.

Lemma click_wellFormed (fresh : Fresh.t) (userName : option string)
    (p : Page.t) :
  selectionWellFormed p ->
  selectionWellFormed (handleAddCommentClick fresh userName p).
Proof.
  intros Hp. unfold handleAddCommentClick.
  destruct (Page.selectionRange p) as [r|] eqn:Er; auto.
  destruct (negb (JS.truthy (JS.trim (Page.newCommentText p)))); auto.
  now apply (cleared p).
Qed.

Ltac split_cases :=
  repeat match goal with
         | |- context [match ?x with _ => _ end] => destruct x
         end.

Ltac untouched p :=
  apply (frame p); [split_cases; reflexivity | split_cases; reflexivity | assumption].

Section Steps.
Variable Number_ : string -> JS.number.

Lemma step_wellFormed (e : Event) (p : Page.t) :
  selectionWellFormed p -> selectionWellFormed (step Number_ e p).
Proof.
  intros Hp. destruct e; cbn [step].
  - destruct (Page.isCommentMode p); auto.
    now apply handleTextSelection_wellFormed.
  - untouched p.
  - now apply click_wellFormed.
  - unfold removeInlineComment; cbn [snd]. untouched p.
  - untouched p.
  - untouched p.
  - untouched p.
  - unfold toggleCommentMode. destruct (Page.isCommentMode p).
    + now apply (cleared p).
    + untouched p.
  - untouched p.
  - unfold handleAnalyzeWithAI_request. untouched p.
  - unfold handleAnalyzeWithAI_response. untouched p.
  - unfold fetchSubmissionDetails_request. untouched p.
  - unfold fetchSubmissionDetails_response. untouched p.
  - unfold updateSubScore. destruct (at_ (Page.subScores p) index); exact Hp.
  - untouched p.
  - untouched p.
Qed.

Lemma run_wellFormed (events : list Event) :
  forall p, selectionWellFormed p -> selectionWellFormed (run Number_ events p).
Proof.
  unfold run. induction events as [|e events IH]; intros p Hp; simpl; auto.
  apply IH. now apply step_wellFormed.
Qed.
End Steps.

Lemma initial_wellFormed : selectionWellFormed Page.initial.
Proof. exact I. Qed.

End RunFacts.

(** Whatever happens to the page from its initial state on, the pending
    selection is well formed: when a selection range is set, it starts at
    0 or later, the selected text is not empty, and the range is exactly
    as long as the selected text. *)
Theorem selection_always_well_formed (Number_ : string -> JS.number)
    (events : list Event) :
  selectionWellFormed (run Number_ events Page.initial).
Proof. apply RunFacts.run_wellFormed, RunFacts.initial_wellFormed. Qed.

(** So a comment that the teacher adds with "Add Comment" always has a
    range that runs forwards and is not empty: after any run of the page,
    the click either adds nothing, or it appends one comment with
    [0 <= startIndex < endIndex], not AI-generated, whose text is the body
    typed. *)
Theorem added_comment_runs_forwards (Number_ : string -> JS.number)
    (events : list Event) (fresh : Fresh.t) (userName : option string) :
  let p := run Number_ events Page.initial in
  let p' := handleAddCommentClick fresh userName p in
  Page.inlineComments p' = Page.inlineComments p
  \/ exists c,
       Page.inlineComments p' = (Page.inlineComments p ++ [c])%list
       /\ 0 <= InlineComment.startIndex c
       /\ InlineComment.startIndex c < InlineComment.endIndex c
       /\ InlineComment.isAIGenerated c = Some false
       /\ InlineComment.text c = Page.newCommentText p.
Proof.
  intros p p'. subst p'.
  pose proof (RunFacts.run_wellFormed Number_ events Page.initial
                RunFacts.initial_wellFormed) as Hwf.
  fold p in Hwf. clearbody p.
  unfold handleAddCommentClick. unfold selectionWellFormed in Hwf.
  destruct (Page.selectionRange p) as [r|]; [|now left].
  destruct (negb (JS.truthy (JS.trim (Page.newCommentText p)))); [now left|].
  right. destruct Hwf as (H0 & Hend & Hne).
  eexists. split; [reflexivity|]. simpl. repeat split; auto.
  rewrite Hend. destruct (Page.selectedText p); [now elim Hne|simpl; lia].
Qed.

(* ===================================================================== *)
(** * The report's file name and the initials *)
(* ===================================================================== *)

Module NameFacts.

Lemma noWhiteSpace_app (a b : string) :
  noWhiteSpace (a ++ b) = noWhiteSpace a && noWhiteSpace b.
Proof.
  induction a as [|c a IH]; simpl; auto.
  rewrite IH. now rewrite andb_assoc.
Qed.

Lemma replaceRuns_noWhiteSpace (s : string) :
  forall inRun, noWhiteSpace (replaceRuns inRun s) = true.
Proof.
  induction s as [|c s IH]; intros inRun; simpl; auto.
  destruct (JS.isWhiteSpace c) eqn:E.
  - destruct inRun; simpl; auto.
  - simpl. now rewrite E, IH.
Qed.

Lemma replaceRuns_id (s : string) :
  noWhiteSpace s = true -> forall inRun, replaceRuns inRun s = s.
Proof.
  induction s as [|c s IH]; intros H inRun; simpl in *; auto.
  apply andb_prop in H as [Hc Hs].
  destruct (JS.isWhiteSpace c); [discriminate|]. now rewrite IH.
Qed.

Lemma orElse_nonempty (a b : string) :
  b <> EmptyString -> orElse a b <> EmptyString.
Proof. unfold orElse. destruct a; simpl; auto. discriminate. Qed.

Lemma orElse_noWhiteSpace (a b : string) :
  noWhiteSpace a = true -> noWhiteSpace b = true ->
  noWhiteSpace (orElse a b) = true.
Proof. unfold orElse. now destruct (JS.truthy a). Qed.

(** The letters of the pieces behind the first one are the word starts
    counted from inside a word; those of all pieces are the word starts
    counted from the beginning. *)
Lemma letters_wordStarts (s : string) :
  initialLetters s = wordStarts true s
  /\ fold_right
       (fun piece acc => match firstUnit piece with
                         | Some c => String c acc
                         | None => acc
                         end)
       EmptyString (tl (splitOnSpace s))
     = wordStarts false s.
Proof.
  unfold initialLetters.
  induction s as [|c s [IH1 IH2]]; simpl; auto.
  destruct (Ascii.eqb c space) eqn:E; simpl.
  - split; exact IH1.
  - destruct (splitOnSpace s) as [|piece rest] eqn:Es; simpl in *.
    + split; congruence.
    + split; congruence.
Qed.

End NameFacts.

(** The file name of the report is "Report_", a student part, an
    underscore, a title part and ".pdf"; neither part is empty, and the
    name holds no white space, whatever the names of the student and of
    the assignment are.  A student name that holds no white space stands
    in the file name as it is. *)
Theorem reportFileName_shape (studentName : option string)
    (assignmentId : AssignmentRef) :
  (exists student title,
      reportFileName studentName assignmentId
      = ("Report_" ++ student ++ "_" ++ title ++ ".pdf")%string
      /\ student <> EmptyString /\ title <> EmptyString
      /\ (forall n, studentName = Some n -> n <> EmptyString ->
                    noWhiteSpace n = true -> student = n))
  /\ noWhiteSpace (reportFileName studentName assignmentId) = true.
Proof.
  split.
  - eexists _, _. split; [reflexivity|].
    split; [apply NameFacts.orElse_nonempty; discriminate|].
    split; [apply NameFacts.orElse_nonempty; discriminate|].
    intros n -> Hn Hw. unfold replaceWhiteSpaceRuns.
    rewrite NameFacts.replaceRuns_id by exact Hw.
    unfold orElse. destruct n; [now elim Hn|reflexivity].
  - unfold reportFileName.
    rewrite !NameFacts.noWhiteSpace_app.
    rewrite !NameFacts.orElse_noWhiteSpace; auto.
    + destruct assignmentId as [i|[t|]]; auto.
      apply NameFacts.replaceRuns_noWhiteSpace.
    + destruct studentName as [n|]; auto.
      apply NameFacts.replaceRuns_noWhiteSpace.
Qed.

Lemma reportFileName_shape_witness :
  reportFileName (Some "Ada  Lovelace") (assignmentObject (Some "Essay 1"))
  = "Report_Ada_Lovelace_Essay_1.pdf"%string
  /\ noWhiteSpace
       (reportFileName (Some "Ada  Lovelace") (assignmentObject (Some "Essay 1")))
     = true.
Proof.
  split; [reflexivity|].
  apply (reportFileName_shape (Some "Ada  Lovelace"%string)
           (assignmentObject (Some "Essay 1"%string))).
Defined.

(** The initials are the upper-cased word starts of the name: the code
    units that are no space and stand first or behind a space (so a name
    of spaces only has none).  A missing or empty name gives "?". *)
Theorem getInitials_word_starts (toUpperCase : string -> string)
    (name : string) (Hname : name <> EmptyString) :
  getInitials toUpperCase (Some name) = toUpperCase (wordStarts true name)
  /\ getInitials toUpperCase None = "?"%string
  /\ getInitials toUpperCase (Some EmptyString) = "?"%string.
Proof.
  repeat split; auto.
  unfold getInitials. destruct name as [|c s]; [now elim Hname|].
  cbn [JS.truthy negb].
  now rewrite (proj1 (NameFacts.letters_wordStarts (String c s))).
Qed.

Lemma getInitials_word_starts_witness :
  getInitials MoreExamples2.upperAscii (Some "ada  lovelace"%string) = "AL"%string
  /\ wordStarts true "ada  lovelace" = "al"%string.
Proof.
  split; [|reflexivity].
  rewrite (proj1 (getInitials_word_starts MoreExamples2.upperAscii
                    "ada  lovelace" ltac:(discriminate))).
  reflexivity.
Defined.

(** A session in which the teacher selects "world" and adds a comment. *)
Example session_adds_forward_range :
  offsetsOf
    (Page.inlineComments
       (handleAddCommentClick Examples.fresh0 (Some "Ms. Rivera"%string)
          (run JS.StringToNumber MoreExamples2.session Page.initial)))
  = [(6, 11)].
Proof. reflexivity. Qed.

(** Leaving the comment mode discards the pending comment: no selection
    range, no selected text and no body are left, the comments are as they
    were, and until the mode is entered again neither a mouse-up in the
    content nor a click on "Add Comment" does anything. *)
Theorem leaving_comment_mode (Number_ : string -> JS.number) (p : Page.t)
    (Hmode : Page.isCommentMode p = true) :
  let p' := toggleCommentMode p in
  Page.isCommentMode p' = false
  /\ Page.selectionRange p' = None
  /\ Page.selectedText p' = EmptyString
  /\ Page.newCommentText p' = EmptyString
  /\ Page.inlineComments p' = Page.inlineComments p
  /\ (forall selection, step Number_ (mouseUpInContent selection) p' = p')
  /\ (forall view selection, handleTextSelection view selection p' = p')
  /\ (forall fresh userName, handleAddCommentClick fresh userName p' = p').
Proof.
  intros p'. subst p'. unfold toggleCommentMode. rewrite Hmode.
  repeat split.
Qed.

Lemma leaving_comment_mode_witness :
  Page.isCommentMode Examples.clickPage = true
  /\ handleAddCommentClick Examples.fresh0 None (toggleCommentMode Examples.clickPage)
     = toggleCommentMode Examples.clickPage.
Proof.
  split; [reflexivity|].
  apply (leaving_comment_mode JS.StringToNumber Examples.clickPage eq_refl).
Defined.

(* ===================================================================== *)
(** * The active comment and the order of the store *)
(* ===================================================================== *)

Module ActiveFacts.
Import LayoutNotions.

Lemma nonEmpty_map {A B : Type} (f : A -> B) (l : list A) :
  nonEmpty (map f l) = nonEmpty l.
Proof. now destruct l. Qed.

Lemma pushLine_inactive (acc : list (list Span.t) * list Span.t)
    (line : string) :
  inactiveAcc (pushLine acc line) = pushLine (inactiveAcc acc) line.
Proof.
  destruct acc as [rp cp]. unfold pushLine, inactiveAcc. cbn [fst snd].
  destruct (String.eqb line _).
  - rewrite nonEmpty_map. destruct (nonEmpty cp); cbn [fst snd];
      rewrite ?map_app; reflexivity.
  - destruct (JS.truthy line); cbn [fst snd]; rewrite ?map_app; reflexivity.
Qed.

Lemma lines_inactive (pieces : list string) :
  forall acc,
    inactiveAcc (fold_left pushLine pieces acc)
    = fold_left pushLine pieces (inactiveAcc acc).
Proof.
  induction pieces as [|x pieces IH]; intros acc; simpl; auto.
  now rewrite IH, pushLine_inactive.
Qed.

Lemma layout_inactive (active : option string) (segments : list Segment.t) :
  forall acc,
    inactiveAcc (fold_left (layoutSegment active) segments acc)
    = fold_left (layoutSegment None) segments (inactiveAcc acc).
Proof.
  induction segments as [|s segments IH]; intros acc; simpl; auto.
  rewrite IH. f_equal. destruct s as [content|content comment]; simpl.
  - apply lines_inactive.
  - destruct acc as [rp cp]. unfold inactiveAcc. cbn [fst snd].
    now rewrite map_app.
Qed.

Lemma render_inactive (p : Page.t) :
  withoutActive (renderHighlightedContent p)
  = renderHighlightedContent (Page.setActiveCommentId None p).
Proof.
  unfold renderHighlightedContent, Page.content.
  cbn [Page.submissionDetails Page.inlineComments Page.activeCommentId
       Page.setActiveCommentId].
  destruct (negb (JS.truthy _)); [reflexivity|].
  pose proof (layout_inactive (Page.activeCommentId p)
                (buildSegments
                   match Page.submissionDetails p with
                   | Some d => SubmissionDetails.content d
                   | None => EmptyString
                   end (Page.inlineComments p)) ([], [])) as H.
  unfold inactiveAcc in H at 2. cbn [fst snd map] in H.
  rewrite <- H.
  destruct (fold_left (layoutSegment (Page.activeCommentId p)) _ _) as [rp cp].
  unfold inactiveAcc. cbn [fst snd].
  rewrite nonEmpty_map.
  destruct cp as [|s cp]; cbn [nonEmpty].
  - rewrite nonEmpty_map. destruct (nonEmpty rp); reflexivity.
  - destruct rp; simpl; rewrite ?map_app; reflexivity.
Qed.

End ActiveFacts.

(** Which comment is active changes the active flags of the highlights and
    nothing else: the same paragraphs with the same spans are rendered,
    and the text of the view, in which selections are measured, is the
    same. *)
Theorem active_comment_changes_flags_only (active : option string)
    (p : Page.t) :
  withoutActive (renderHighlightedContent (Page.setActiveCommentId active p))
  = withoutActive (renderHighlightedContent p)
  /\ renderedSegments (Page.setActiveCommentId active p) = renderedSegments p
  /\ Page.inlineComments (Page.setActiveCommentId active p)
     = Page.inlineComments p.
Proof.
  split; [|split; reflexivity].
  rewrite !ActiveFacts.render_inactive. reflexivity.
Qed.

Module OrderFacts.

(** A permutation of a list sorted by start, with pairwise different
    starts, that is itself sorted by start is the same list. *)
Lemma sorted_perm_unique (l : list InlineComment.t) :
  forall l',
    Permutation l l' ->
    distinctStarts l ->
    StronglySorted startsBefore l ->
    StronglySorted startsBefore l' ->
    l = l'.
Proof.
  induction l as [|x l IH]; intros l' Hp Hd Hs Hs'.
  - apply Permutation_nil in Hp. now subst.
  - destruct l' as [|y l'];
      [apply Permutation_sym, Permutation_nil in Hp; discriminate|].
    inversion Hs as [|? ? Hsl Hx]; subst.
    inversion Hs' as [|? ? Hsl' Hy]; subst.
    unfold distinctStarts in Hd. simpl in Hd.
    inversion Hd as [|? ? Hnotin Hdl]; subst.
    rewrite Forall_forall in Hx, Hy.
    assert (Hxy : x = y).
    { assert (Hin : In x (y :: l'))
        by (eapply Permutation_in; [exact Hp|now left]).
      assert (Hin' : In y (x :: l))
        by (eapply Permutation_in; [apply Permutation_sym; exact Hp|now left]).
      destruct Hin as [->|Hin]; auto.
      destruct Hin' as [->|Hin']; auto.
      specialize (Hx y Hin'). specialize (Hy x Hin).
      unfold startsBefore in *.
      elim Hnotin. replace (InlineComment.startIndex x)
        with (InlineComment.startIndex y) by lia.
      now apply in_map. }
    subst y. f_equal. apply IH; auto.
    eapply Permutation_cons_inv; eauto.
Qed.

Lemma distinctStarts_perm (l l' : list InlineComment.t) :
  Permutation l l' -> distinctStarts l -> distinctStarts l'.
Proof.
  unfold distinctStarts. intros Hp.
  apply Permutation_NoDup. now apply Permutation_map.
Qed.

End OrderFacts.

(** When the comments start at pairwise different offsets, the order of
    the store does not matter for the display: two stores that hold the
    same comments give the same walk, the same sidebar list and the same
    rendering. *)
Theorem display_ignores_store_order (l l' : list InlineComment.t) (p : Page.t)
    (Hperm : Permutation l l')
    (Hstarts : distinctStarts l) :
  JS.sort compareByStart l = JS.sort compareByStart l'
  /\ renderHighlightedContent (Page.setInlineComments l p)
     = renderHighlightedContent (Page.setInlineComments l' p).
Proof.
  assert (H : JS.sort compareByStart l = JS.sort compareByStart l').
  { apply OrderFacts.sorted_perm_unique.
    - rewrite <- (RendererFacts.sort_permutation l).
      rewrite <- (RendererFacts.sort_permutation l'). exact Hperm.
    - eapply OrderFacts.distinctStarts_perm;
        [apply RendererFacts.sort_permutation|exact Hstarts].
    - apply RendererFacts.sort_startsBefore.
    - apply RendererFacts.sort_startsBefore. }
  split; [exact H|].
  unfold renderHighlightedContent, Page.content, buildSegments.
  cbn [Page.submissionDetails Page.inlineComments Page.activeCommentId
       Page.setInlineComments].
  now rewrite H.
Qed.

Lemma display_ignores_store_order_witness :
  renderHighlightedContent
    (Page.setInlineComments [Examples.commentA; Examples.commentB] Examples.foxPage)
  = renderHighlightedContent
      (Page.setInlineComments [Examples.commentB; Examples.commentA] Examples.foxPage).
Proof.
  apply (display_ignores_store_order
           [Examples.commentA; Examples.commentB]
           [Examples.commentB; Examples.commentA] Examples.foxPage).
  - apply perm_swap.
  - unfold distinctStarts. simpl. repeat constructor; simpl; intuition discriminate.
Defined.
